(** * Verification model of parquet_read (reader.py, lib/download.py)

    A shallow embedding of the download pipeline of [parquet_read]:
    - [OsPath]: the parts of Python's [posixpath] the code uses;
    - a state / exception / non-termination monad [M] over a [World];
    - [Download]: the class [ParquetFromS3] of lib/download.py, with its
      multiprocessing worker pool as an interleaving of worker steps;
    - [Reader]: the class [Connection] of reader.py. *)

From Stdlib Require Import String Ascii List Bool Arith Lia.
Import ListNotations.
Open Scope string_scope.

(* ------------------------------------------------------------------ *)
(** ** posixpath *)

Module OsPath.

Definition slash : ascii := "/"%char.

(** Split at the last ['/']: the head keeps that slash. *)
Fixpoint split_last_slash (s : string) : string * string :=
  match s with
  | EmptyString => ("", "")
  | String c rest =>
      let (h, t) := split_last_slash rest in
      match h with
      | EmptyString =>
          if Ascii.eqb c slash then ("/", t) else ("", String c t)
      | _ => (String c h, t)
      end
  end.

(** [os.path.basename(p)]: [p[p.rfind('/') + 1:]]. *)
Definition basename (p : string) : string := snd (split_last_slash p).

Fixpoint all_slashes (l : list ascii) : bool :=
  match l with
  | [] => true
  | c :: l' => Ascii.eqb c slash && all_slashes l'
  end.

Fixpoint drop_slashes (l : list ascii) : list ascii :=
  match l with
  | c :: l' => if Ascii.eqb c slash then drop_slashes l' else l
  | [] => []
  end.

Definition rstrip_slash (s : string) : string :=
  string_of_list_ascii (rev (drop_slashes (rev (list_ascii_of_string s)))).

(** [os.path.split(p)]: head without its trailing slashes (unless it is
    made only of slashes), and the base name. *)
Definition split (p : string) : string * string :=
  let (h, t) := split_last_slash p in
  if negb (String.eqb h "") && negb (all_slashes (list_ascii_of_string h))
  then (rstrip_slash h, t) else (h, t).

Definition starts_with (c : ascii) (s : string) : bool :=
  match s with
  | String c' _ => Ascii.eqb c c'
  | EmptyString => false
  end.

Definition ends_with_slash (s : string) : bool :=
  match rev (list_ascii_of_string s) with
  | c :: _ => Ascii.eqb c slash
  | [] => false
  end.

(** [os.path.join(a, b)] *)
Definition join (a b : string) : string :=
  if starts_with slash b then b
  else if String.eqb a "" || ends_with_slash a then a ++ b
  else a ++ "/" ++ b.

End OsPath.

(* ------------------------------------------------------------------ *)
(** ** Exceptions, world and the monad *)

(** The exceptions raised along the modelled paths. *)
Inductive exn : Type :=
| S3ConnectionError (msg : string)
| DownloadError (msg : string)
| ValueError (msg : string)
| TypeError (msg : string)
| FileNotFoundError (path : string)
| AttributeError (msg : string).

(** Interface of an [s3fs.S3FileSystem] handle, as the code uses it:
    [exists], [ls] (raising [FileNotFoundError] on a missing path) and the
    size in bytes of the object a read returns. *)
Record S3FileSystem : Type := mkS3 {
  s3_exists : string -> bool;
  s3_ls : string -> option (list string);
  s3_size : string -> option nat
}.

(** Outcome of one remote read in a worker ([self._connection.open(path)]
    then [remote_file.read()]): the whole object, a truncated read that
    lands as an empty local file, or a [NewConnectionError]. *)
Inductive tr_outcome : Type := TOk | TTrunc | TConnFail.

(** Observable events, used to count listings, attempts and transfers. *)
Inductive event : Type :=
| EvExists (path : string)
| EvLs (path : string)
| EvNewDownload
| EvGet (worker : nat) (item : string)
| EvWrite (path : string) (size : nat)
| EvConvert (path : string).

Record World : Type := mkWorld {
  w_env : list (string * string);   (** [os.environ] *)
  w_fs : list (string * nat);       (** local filesystem: path |-> st_size *)
  w_remote : S3FileSystem;          (** what [s3fs.S3FileSystem(key, secret)] returns *)
  w_net : list tr_outcome;          (** successive remote reads; [TOk] once exhausted *)
  w_sched : list (list nat);        (** per pool run, the interleaving the OS picks *)
  w_cpus : nat;                     (** [multiprocessing.cpu_count()] *)
  w_tmpdir : string;                (** what [tempfile.mkdtemp] returns *)
  w_log : list event
}.

Definition fs_lookup (p : string) (fs : list (string * nat)) : option nat :=
  match find (fun e => String.eqb (fst e) p) fs with
  | Some (_, n) => Some n
  | None => None
  end.

Definition env_lookup (k : string) (env : list (string * string)) : option string :=
  match find (fun e => String.eqb (fst e) k) env with
  | Some (_, v) => Some v
  | None => None
  end.

(** Results: a value, a raised exception, or a computation that never
    returns (a process blocked forever); each with the world reached. *)
Inductive res (S A : Type) : Type :=
| Ok (a : A) (s : S)
| Raise (e : exn) (s : S)
| Hang (s : S).
Arguments Ok {S A} a s.
Arguments Raise {S A} e s.
Arguments Hang {S A} s.

Definition M (S A : Type) : Type := S -> res S A.

Definition ret {S A} (a : A) : M S A := fun s => Ok a s.
Definition raise {S A} (e : exn) : M S A := fun s => Raise e s.
Definition bind {S A B} (m : M S A) (k : A -> M S B) : M S B :=
  fun s => match m s with
           | Ok a s' => k a s'
           | Raise e s' => Raise e s'
           | Hang s' => Hang s'
           end.
(** [try: m except: h] *)
Definition try_except {S A} (m : M S A) (h : exn -> M S A) : M S A :=
  fun s => match m s with
           | Raise e s' => h e s'
           | r => r
           end.
Definition get {S} : M S S := fun s => Ok s s.
Definition put {S} (s : S) : M S unit := fun _ => Ok tt s.

Notation "x <- m ;; k" := (bind m (fun x => k))
  (at level 61, m at next level, right associativity).
Notation "m ;; k" := (bind m (fun _ => k))
  (at level 61, right associativity).

Definition log_event (e : event) : M World unit :=
  fun w => Ok tt {| w_env := w_env w; w_fs := w_fs w; w_remote := w_remote w;
                    w_net := w_net w; w_sched := w_sched w; w_cpus := w_cpus w;
                    w_tmpdir := w_tmpdir w; w_log := w_log w ++ [e] |}.

Definition set_fs (fs : list (string * nat)) (w : World) : World :=
  {| w_env := w_env w; w_fs := fs; w_remote := w_remote w;
     w_net := w_net w; w_sched := w_sched w; w_cpus := w_cpus w;
     w_tmpdir := w_tmpdir w; w_log := w_log w |}.

(** Write (create or truncate) a local file of [n] bytes. *)
Definition write_file (p : string) (n : nat) : M World unit :=
  fun w => log_event (EvWrite p n) (set_fs ((p, n) :: w_fs w) w).

(** [os.mkdir(p)]: directories are entries of the filesystem as well. *)
Definition dir_st_size : nat := 4096.
Definition mkdir (p : string) : M World unit :=
  fun w => Ok tt (set_fs ((p, dir_st_size) :: w_fs w) w).

Definition path_exists (p : string) : M World bool :=
  fun w => Ok (match fs_lookup p (w_fs w) with Some _ => true | None => false end) w.

(* ------------------------------------------------------------------ *)
(** ** lib/download.py: class [ParquetFromS3] *)

Module Download.
Import OsPath.

Record ParquetFromS3 : Type := mkP {
  p_connection : S3FileSystem;
  p_destination_path : string;
  p_uri : string;
  p_queue : list string;            (** the [multiprocessing.Queue], FIFO *)
  p_num_of_processes : nat;
  p_files_to_download : list string
}.

Definition with_queue (p : ParquetFromS3) (q : list string) : ParquetFromS3 :=
  {| p_connection := p_connection p; p_destination_path := p_destination_path p;
     p_uri := p_uri p; p_queue := q; p_num_of_processes := p_num_of_processes p;
     p_files_to_download := p_files_to_download p |}.

(** [successfully_downloaded]: the [for] loop over [_files_to_download],
    leaving with [False] at the first missing or too small file. *)
Fixpoint successfully_downloaded_loop (dest : string) (files : list string)
    (fs : list (string * nat)) : bool :=
  match files with
  | [] => true
  | file_name :: rest =>
      let final_path := join dest file_name in
      match fs_lookup final_path fs with
      | None => false                                  (* not os.path.exists *)
      | Some size => if Nat.leb size 1 then false        (* getsize <= 1 *)
                     else successfully_downloaded_loop dest rest fs
      end
  end.

Definition successfully_downloaded (p : ParquetFromS3) (fs : list (string * nat)) : bool :=
  successfully_downloaded_loop (p_destination_path p) (p_files_to_download p) fs.

Definition is_marker (file_name : string) : bool :=
  starts_with "_"%char (basename file_name).

(** The loop body of [_create_list_of_files_to_download] over the listing:
    [queue.put(file_name)] and [_files_to_download.append(name_part)]. *)
Fixpoint list_files_loop (listing : list string) (queue files : list string)
    : list string * list string :=
  match listing with
  | [] => (queue, files)
  | file_name :: rest =>
      if negb (is_marker file_name)
      then list_files_loop rest (queue ++ [file_name])
                               (files ++ [snd (split file_name)])
      else list_files_loop rest queue files
  end.

Definition _create_list_of_files_to_download (p : ParquetFromS3)
    : M World ParquetFromS3 :=
  let path := "s3://" ++ p_uri p in
  log_event (EvLs path);;
  match s3_ls (p_connection p) path with
  | None => raise (FileNotFoundError path)
  | Some listing =>
      let (q, files) := list_files_loop listing (p_queue p) (p_files_to_download p) in
      ret {| p_connection := p_connection p; p_destination_path := p_destination_path p;
             p_uri := p_uri p; p_queue := q; p_num_of_processes := p_num_of_processes p;
             p_files_to_download := files |}
  end.

(** [_set_connection_to_s3]: a falsy connection ([None]) is replaced by a
    new one built from [S3_ACCESS] and [S3_SECRET]. *)
Definition _set_connection_to_s3 (connection : option S3FileSystem) : M World S3FileSystem :=
  match connection with
  | Some c => ret c
  | None =>
      w <- get;;
      match env_lookup "S3_ACCESS" (w_env w), env_lookup "S3_SECRET" (w_env w) with
      | Some key, Some secret =>
          if negb (String.eqb key "") && negb (String.eqb secret "")
          then ret (w_remote w)
          else raise (DownloadError "Unable to make connection to S3 because required environment variables are not set")
      | _, _ => raise (DownloadError "Unable to make connection to S3 because required environment variables are not set")
      end
  end.

(** [_set_destination_directory] *)
Definition _set_destination_directory (parent_dir uri : string) : M World string :=
  if String.eqb parent_dir "" then raise (DownloadError "Destination directory is not set")
  else
    let file_name := snd (split uri) in
    let destination_path := join parent_dir file_name in
    ex <- path_exists destination_path;;
    (if ex then ret tt else mkdir destination_path);;
    ret destination_path.

(** [ParquetFromS3(connection, parent_dir, uri)] *)
Definition new_ParquetFromS3 (connection : option S3FileSystem) (parent_dir uri : string)
    : M World ParquetFromS3 :=
  log_event EvNewDownload;;
  w <- get;;
  c <- _set_connection_to_s3 connection;;
  dest <- _set_destination_directory parent_dir uri;;
  _create_list_of_files_to_download
    {| p_connection := c; p_destination_path := dest; p_uri := uri; p_queue := [];
       p_num_of_processes := w_cpus w; p_files_to_download := [] |}.

(** *** The worker pool of [download_files_from_s3]

    Each worker runs [_download_single_file]:
    [while not queue.empty(): path = queue.get(); <copy path>]. A worker is
    about to test [queue.empty()] ([WLoop]), about to call the blocking
    [queue.get()] ([WGet]), returned from its loop ([WDone]) or ended by an
    exception ([WFailed]). *)
Inductive wpc : Type := WLoop | WGet | WDone | WFailed.

Fixpoint set_nth {A} (l : list A) (i : nat) (x : A) : list A :=
  match l, i with
  | [], _ => []
  | _ :: l', 0 => x :: l'
  | y :: l', S i' => y :: set_nth l' i' x
  end.

Definition next_read (w : World) : tr_outcome * World :=
  match w_net w with
  | [] => (TOk, w)
  | o :: rest =>
      (o, {| w_env := w_env w; w_fs := w_fs w; w_remote := w_remote w; w_net := rest;
             w_sched := w_sched w; w_cpus := w_cpus w; w_tmpdir := w_tmpdir w;
             w_log := w_log w |})
  end.

(** One iteration body after [path = queue.get()] in worker [i]:
    [with connection.open(path, 'rb') as remote_file,
          open(_target_path, 'wb') as local_file:
        local_file.write(remote_file.read())].
    [true] when the worker goes on with its loop; [false] when an
    exception ended it: a [NewConnectionError] (turned into
    [DownloadError] by the [except]) or a missing remote object. *)
Definition copy_object (conn : S3FileSystem) (dest : string) (i : nat) (path : string)
    (w : World) : bool * World :=
  match log_event (EvGet i path) w with
  | Ok _ w1 =>
      let filename := basename path in
      let target := join dest filename in
      let (o, w2) := next_read w1 in
      match o with
      | TConnFail => (false, w2)
      | TTrunc =>
          match write_file target 0 w2 with Ok _ w3 => (true, w3) | _ => (true, w2) end
      | TOk =>
          match s3_size conn path with
          | None => (false, w2)
          | Some n =>
              match write_file target n w2 with Ok _ w3 => (true, w3) | _ => (true, w2) end
          end
      end
  | _ => (true, w)
  end.

(** One scheduled step of worker [i]. The queue is shared by all workers;
    [queue.get()] removes its head atomically and blocks while it is empty. *)
Definition worker_step (conn : S3FileSystem) (dest : string) (i : nat)
    (st : list wpc * list string * World) : list wpc * list string * World :=
  let '(pcs, q, w) := st in
  match nth_error pcs i with
  | Some WLoop =>
      match q with
      | [] => (set_nth pcs i WDone, q, w)
      | _ :: _ => (set_nth pcs i WGet, q, w)
      end
  | Some WGet =>
      match q with
      | [] => (pcs, q, w)
      | x :: q' =>
          let (ok, w') := copy_object conn dest i x w in
          (set_nth pcs i (if ok then WLoop else WFailed), q', w')
      end
  | _ => (pcs, q, w)
  end.

Definition run_sched (conn : S3FileSystem) (dest : string) (sched : list nat)
    (st : list wpc * list string * World) : list wpc * list string * World :=
  fold_left (fun st i => worker_step conn dest i st) sched st.

(** Worker [i] running alone until it leaves its loop, dies, or blocks in
    [queue.get()] on the empty queue. *)
Fixpoint drain_alone (conn : S3FileSystem) (dest : string) (i : nat) (pc : wpc)
    (q : list string) (w : World) : wpc * list string * World :=
  match pc, q with
  | WLoop, [] => (WDone, [], w)
  | WGet, [] => (WGet, [], w)
  | (WLoop | WGet), x :: q' =>
      let (ok, w') := copy_object conn dest i x w in
      if ok then drain_alone conn dest i WLoop q' w' else (WFailed, q', w')
  | _, _ => (pc, q, w)
  end.

(** After the interleaved prefix, the workers run to the end one after
    the other. *)
Fixpoint complete (conn : S3FileSystem) (dest : string) (i : nat) (pcs : list wpc)
    (q : list string) (w : World) : list wpc * list string * World :=
  match pcs with
  | [] => ([], q, w)
  | pc :: pcs' =>
      let '(pc', q1, w1) := drain_alone conn dest i pc q w in
      let '(pcs'', q2, w2) := complete conn dest (S i) pcs' q1 w1 in
      (pc' :: pcs'', q2, w2)
  end.

Definition pool_run (conn : S3FileSystem) (dest : string) (n : nat) (sched : list nat)
    (q : list string) (w : World) : list wpc * list string * World :=
  let '(pcs, q1, w1) := run_sched conn dest sched (repeat WLoop n, q, w) in
  complete conn dest 0 pcs q1 w1.

Definition blocked (pc : wpc) : bool := match pc with WGet => true | _ => false end.

Definition pop_sched (w : World) : list nat * World :=
  match w_sched w with
  | [] => ([], w)
  | s :: rest =>
      (s, {| w_env := w_env w; w_fs := w_fs w; w_remote := w_remote w; w_net := w_net w;
             w_sched := rest; w_cpus := w_cpus w; w_tmpdir := w_tmpdir w;
             w_log := w_log w |})
  end.

(** [download_files_from_s3]: start [_num_of_processes] processes on the
    shared queue and [join] them all. An exception raised in a
    [multiprocessing.Process] target ends that child process only: [join]
    returns normally, so no exception reaches the caller. A child blocked
    forever in [queue.get()] makes [join] wait forever. *)
Definition download_files_from_s3 (p : ParquetFromS3) : M World ParquetFromS3 :=
  fun w =>
    let (sched, w0) := pop_sched w in
    let '(pcs, q, w1) :=
      pool_run (p_connection p) (p_destination_path p) (p_num_of_processes p)
               sched (p_queue p) w0 in
    if existsb blocked pcs then Hang w1 else Ok (with_queue p q) w1.

End Download.

(* ------------------------------------------------------------------ *)
(** ** reader.py: class [Connection] *)

Module Reader.
Import OsPath Download.

(** Python values passed as constructor arguments. *)
Inductive pyval : Type :=
| PyNone
| PyStr (s : string)
| PyInt (n : nat).

Definition isinstance_str (v : pyval) : bool :=
  match v with PyStr _ => true | _ => false end.

(** [v != ""] *)
Definition ne_empty (v : pyval) : bool :=
  match v with PyStr s => negb (String.eqb s "") | _ => true end.

(** [v is not None] *)
Definition is_not_none (v : pyval) : bool :=
  match v with PyNone => false | _ => true end.

(** [not v] for the values [os.getenv] returns. *)
Definition falsy (v : option string) : bool :=
  match v with None => true | Some s => String.eqb s "" end.

Definition truthy_arg (v : pyval) : bool :=
  match v with PyNone => false | PyStr s => negb (String.eqb s "") | PyInt n => negb (Nat.eqb n 0) end.

Record Connection : Type := mkConn {
  c_destination_dir : string;
  c_bucket : string;
  c_uri : string;
  c_s3_connection : option S3FileSystem;
  c_download_process : option ParquetFromS3;
  c_full_download_path : string
}.

(** Class attributes before [__init__] assigns them. *)
Definition conn0 : Connection :=
  {| c_destination_dir := ""; c_bucket := ""; c_uri := ""; c_s3_connection := None;
     c_download_process := None; c_full_download_path := "" |}.

Definition CW : Type := Connection * World.

Definition liftW {A} (m : M World A) : M CW A :=
  fun '(c, w) => match m w with
                 | Ok a w' => Ok a (c, w')
                 | Raise e w' => Raise e (c, w')
                 | Hang w' => Hang (c, w')
                 end.

Definition getC : M CW Connection := fun '(c, w) => Ok c (c, w).
Definition modifyC (f : Connection -> Connection) : M CW unit :=
  fun '(c, w) => Ok tt (f c, w).

Definition set_uri (u : string) (c : Connection) : Connection :=
  {| c_destination_dir := c_destination_dir c; c_bucket := c_bucket c; c_uri := u;
     c_s3_connection := c_s3_connection c; c_download_process := c_download_process c;
     c_full_download_path := c_full_download_path c |}.
Definition set_bucket (b : string) (c : Connection) : Connection :=
  {| c_destination_dir := c_destination_dir c; c_bucket := b; c_uri := c_uri c;
     c_s3_connection := c_s3_connection c; c_download_process := c_download_process c;
     c_full_download_path := c_full_download_path c |}.
Definition set_destination_dir (d : string) (c : Connection) : Connection :=
  {| c_destination_dir := d; c_bucket := c_bucket c; c_uri := c_uri c;
     c_s3_connection := c_s3_connection c; c_download_process := c_download_process c;
     c_full_download_path := c_full_download_path c |}.
Definition set_s3_connection (s : S3FileSystem) (c : Connection) : Connection :=
  {| c_destination_dir := c_destination_dir c; c_bucket := c_bucket c; c_uri := c_uri c;
     c_s3_connection := Some s; c_download_process := c_download_process c;
     c_full_download_path := c_full_download_path c |}.
Definition set_download_process (p : ParquetFromS3) (c : Connection) : Connection :=
  {| c_destination_dir := c_destination_dir c; c_bucket := c_bucket c; c_uri := c_uri c;
     c_s3_connection := c_s3_connection c; c_download_process := Some p;
     c_full_download_path := c_full_download_path c |}.
Definition set_full_download_path (f : string) (c : Connection) : Connection :=
  {| c_destination_dir := c_destination_dir c; c_bucket := c_bucket c; c_uri := c_uri c;
     c_s3_connection := c_s3_connection c; c_download_process := c_download_process c;
     c_full_download_path := f |}.

Definition getenv (k : string) : M CW (option string) :=
  fun '(c, w) => Ok (env_lookup k (w_env w)) (c, w).

(** A string holding the NUL character, which [os.putenv] refuses. *)
Definition has_nul (s : string) : bool :=
  existsb (fun ch => Ascii.eqb ch "000"%char) (list_ascii_of_string s).

(** [os.environ[k] = v]: only strings may be stored, and a value with an
    embedded null byte raises [ValueError]. *)
Definition environ_set (k : string) (v : pyval) : M CW unit :=
  match v with
  | PyStr s =>
      if has_nul s then raise (ValueError "embedded null byte") else
      fun '(c, w) =>
        Ok tt (c, {| w_env := (k, s) :: w_env w; w_fs := w_fs w; w_remote := w_remote w;
                     w_net := w_net w; w_sched := w_sched w; w_cpus := w_cpus w;
                     w_tmpdir := w_tmpdir w; w_log := w_log w |})
  | _ => raise (TypeError "str expected")
  end.

(** [_set_uri_path] *)
Definition _set_uri_path (uri : pyval) : M CW unit :=
  if isinstance_str uri then
    if ne_empty uri || is_not_none uri then
      match uri with PyStr u => modifyC (set_uri u) | _ => ret tt end
    else raise (ValueError "Unable to assign")
  else raise (ValueError "Unable to set URI path because value is not a string").

(** [_set_bucket] ([print] calls omitted) *)
Definition _set_bucket (bucket : pyval) : M CW unit :=
  bucket_name <- getenv "S3_BUCKET";;
  if falsy bucket_name then
    if isinstance_str bucket then
      if ne_empty bucket || is_not_none bucket then
        match bucket with PyStr b => modifyC (set_bucket b) | _ => ret tt end
      else raise (ValueError "Unable to assign")
    else raise (ValueError "Unable to set S3 Bucket value because S3_BUCKET is not set")
  else
    match bucket_name with Some b => modifyC (set_bucket b) | None => ret tt end.

(** [_set_s3_access_key] *)
Definition _set_s3_access_key (access_key : pyval) : M CW unit :=
  access_string <- getenv "S3_ACCESS";;
  if falsy access_string then
    if isinstance_str access_key then
      if ne_empty access_key || is_not_none access_key
      then environ_set "S3_ACCESS" access_key
      else raise (ValueError "Unable to assign")
    else raise (ValueError "Unable to set S3 access_key value because value is not a string")
  else ret tt.

(** [_set_s3_secret_key]: note the [not isinstance(secret_key, str)]. *)
Definition _set_s3_secret_key (secret_key : pyval) : M CW unit :=
  secret_string <- getenv "S3_SECRET";;
  if falsy secret_string then
    if negb (isinstance_str secret_key) then
      if ne_empty secret_key || is_not_none secret_key
      then environ_set "S3_SECRET" secret_key
      else raise (ValueError "Unable to assign")
    else raise (ValueError "Unable to set S3 secret_key value because value is not a string")
  else ret tt.

(** [_set_json_destination_directory]: with no directory given, a fresh
    temporary directory ([tempfile.mkdtemp]). *)
Definition _set_json_destination_directory (destination_dir : pyval) : M CW unit :=
  if negb (truthy_arg destination_dir) then
    fun '(c, w) => Ok tt (set_destination_dir (w_tmpdir w) c,
                          set_fs ((w_tmpdir w, dir_st_size) :: w_fs w) w)
  else
    match destination_dir with
    | PyStr d =>
        ex <- liftW (path_exists d);;
        (if ex then ret tt else liftW (mkdir d));;
        modifyC (set_destination_dir d)
    | _ => raise (TypeError "expected str")
    end.

(** [_create_connection] *)
Definition _create_connection : M CW unit :=
  key <- getenv "S3_ACCESS";;
  secret <- getenv "S3_SECRET";;
  java_home <- getenv "JAVA_HOME";;
  if falsy java_home
  then raise (S3ConnectionError "JAVA_HOME env variable is not set this will cause connection to fail")
  else if negb (falsy key) && negb (falsy secret)
  then fun '(c, w) => Ok tt (set_s3_connection (w_remote w) c, w)
  else raise (S3ConnectionError "Unable to make connection to S3 because required environment variables are not set").

(** [Connection.__init__] *)
Definition __init__ (uri bucket access_key secret_key destination_dir : pyval) : M CW unit :=
  _set_uri_path uri;;
  _set_bucket bucket;;
  _set_s3_access_key access_key;;
  _set_s3_secret_key secret_key;;
  _set_json_destination_directory destination_dir;;
  _create_connection;;
  c <- getC;;
  modifyC (set_full_download_path (join (c_bucket c) (c_uri c))).

(** [test_connection]: existence of [s3://bucket/<head of os.path.split(uri)>]. *)
Definition test_connection : M CW bool :=
  c <- getC;;
  let (path_part, _) := split (c_uri c) in
  let s3_path := join (c_bucket c) path_part in
  match c_s3_connection c with
  | None => raise (AttributeError "'NoneType' object has no attribute 'exists'")
  | Some s3 =>
      liftW (log_event (EvExists ("s3://" ++ s3_path)));;
      ret (s3_exists s3 ("s3://" ++ s3_path))
  end.

(** The [while total_tries != 0] loop; the result is [total_tries] when the
    loop is left. *)
Fixpoint retry_loop (total_tries : nat) : M CW nat :=
  match total_tries with
  | 0 => ret 0
  | S t =>
      try_except
        (c <- getC;;
         p <- liftW (new_ParquetFromS3 (c_s3_connection c) (c_destination_dir c)
                                        (c_full_download_path c));;
         modifyC (set_download_process p);;
         p' <- liftW (download_files_from_s3 p);;
         modifyC (set_download_process p');;
         ret total_tries)                                    (* break *)
        (fun e =>
           match e with
           | DownloadError _ =>
               c <- getC;;
               match c_download_process c with
               | None => raise (AttributeError "'NoneType' object has no attribute 'download_files_from_s3'")
               | Some p =>
                   p' <- liftW (download_files_from_s3 p);;
                   modifyC (set_download_process p');;
                   retry_loop t                              (* total_tries -= 1 *)
               end
           | _ => raise e
           end)
  end.

Definition msg_exhausted (full : string) : string :=
  "Unable to download " ++ full ++ " after attempting 3 times".
Definition msg_unreachable (full : string) : string :=
  "Unable to download " ++ full ++ " because connection to S3 is not valid".
Definition msg_not_all : string :=
  "Unable to download convert downloaded files to JSON because files did not successfully download all files".

(** [_create_download_obj_and_download_file] *)
Definition _create_download_obj_and_download_file : M CW unit :=
  ok <- test_connection;;
  c <- getC;;
  if ok then
    total_tries <- retry_loop 3;;
    if Nat.eqb total_tries 0
    then raise (S3ConnectionError (msg_exhausted (c_full_download_path c)))
    else ret tt
  else raise (S3ConnectionError (msg_unreachable (c_full_download_path c))).

(** [download_and_convert_to_json]. The conversion by [ReadParquet] is
    the external collaborator; it is recorded as an [EvConvert] event. *)
Definition download_and_convert_to_json : M CW unit :=
  _create_download_obj_and_download_file;;
  c <- getC;;
  match c_download_process c with
  | None => raise (AttributeError "'NoneType' object has no attribute 'successfully_downloaded'")
  | Some p =>
      w <- liftW get;;
      if successfully_downloaded p (w_fs w)
      then liftW (log_event (EvConvert (p_destination_path p)))
      else raise (S3ConnectionError msg_not_all)
  end.

End Reader.

(* ------------------------------------------------------------------ *)
(** ** Concrete runs *)

Module Scenario.
Import OsPath Download Reader.

(** Bucket [b] holding the parquet directory [data.parquet]: two parts
    and the [_SUCCESS] marker. *)
Definition store_data : S3FileSystem := {|
  s3_exists := fun p => String.eqb p "s3://b/" || String.eqb p "s3://b/data.parquet";
  s3_ls := fun p =>
    if String.eqb p "s3://b/data.parquet"
    then Some ["b/data.parquet/part-0001"; "b/data.parquet/part-0002";
               "b/data.parquet/_SUCCESS"]
    else None;
  s3_size := fun x =>
    if String.eqb x "b/data.parquet/part-0001" then Some 100
    else if String.eqb x "b/data.parquet/part-0002" then Some 200
    else if String.eqb x "b/data.parquet/_SUCCESS" then Some 0
    else None |}.

(** Bucket [b] exists, the prefix [b/data.parquet] does not. *)
Definition store_no_prefix : S3FileSystem := {|
  s3_exists := fun p => String.eqb p "s3://b/";
  s3_ls := fun _ => None;
  s3_size := fun _ => None |}.

(** The prefix holds only the [_SUCCESS] marker. *)
Definition store_markers_only : S3FileSystem := {|
  s3_exists := fun p => String.eqb p "s3://b/" || String.eqb p "s3://b/data.parquet";
  s3_ls := fun p =>
    if String.eqb p "s3://b/data.parquet" then Some ["b/data.parquet/_SUCCESS"] else None;
  s3_size := fun _ => Some 0 |}.

Definition env_creds : list (string * string) :=
  [("S3_ACCESS", "k"); ("S3_SECRET", "s"); ("JAVA_HOME", "/jvm")].

Definition world (remote : S3FileSystem) (net : list tr_outcome) (sched : list (list nat))
    (cpus : nat) : World :=
  {| w_env := env_creds; w_fs := [("/out", dir_st_size)]; w_remote := remote;
     w_net := net; w_sched := sched; w_cpus := cpus; w_tmpdir := "/tmp/tmpx";
     w_log := [] |}.

(** [Connection(uri, bucket="b", destination_dir="/out").download_and_convert_to_json()] *)
Definition run (uri : string) (w : World) : res CW unit :=
  (__init__ (PyStr uri) (PyStr "b") PyNone PyNone (PyStr "/out");;
   download_and_convert_to_json) (conn0, w).

(** The [Connection] that [__init__] builds for [uri] in those worlds. *)
Definition conn_b (uri : string) (s3 : S3FileSystem) : Connection :=
  {| c_destination_dir := "/out"; c_bucket := "b"; c_uri := uri;
     c_s3_connection := Some s3; c_download_process := None;
     c_full_download_path := join "b" uri |}.

(** A batch of one object, four worker processes. *)
Definition p_one : ParquetFromS3 :=
  {| p_connection := store_data; p_destination_path := "/out/data.parquet";
     p_uri := "b/data.parquet"; p_queue := ["b/data.parquet/part-0001"];
     p_num_of_processes := 4; p_files_to_download := ["part-0001"] |}.

(** The same batch with one worker process. *)
Definition p_single : ParquetFromS3 :=
  {| p_connection := store_data; p_destination_path := "/out/data.parquet";
     p_uri := "b/data.parquet"; p_queue := ["b/data.parquet/part-0001"];
     p_num_of_processes := 1; p_files_to_download := ["part-0001"] |}.

(** A world where [S3_SECRET] is unset. *)
Definition world_no_secret : World :=
  {| w_env := [("S3_ACCESS", "k"); ("JAVA_HOME", "/jvm")]; w_fs := [("/out", dir_st_size)];
     w_remote := store_data; w_net := []; w_sched := []; w_cpus := 4;
     w_tmpdir := "/tmp/tmpx"; w_log := [] |}.

End Scenario.

(* ------------------------------------------------------------------ *)
(** ** Observations on runs *)

Module Props.
Import OsPath Download Reader.

Definition res_world {S A} (r : res S A) : S :=
  match r with Ok _ s | Raise _ s | Hang s => s end.

(** Number of [ParquetFromS3] objects built: the attempts. *)
Definition attempts (l : list event) : nat :=
  length (filter (fun e => match e with EvNewDownload => true | _ => false end) l).

(** Number of remote listings. *)
Definition listings (l : list event) : nat :=
  length (filter (fun e => match e with EvLs _ => true | _ => false end) l).

(** Items taken from the queue, in the order of the [EvGet] events. *)
Fixpoint gets (evs : list event) : list string :=
  match evs with
  | [] => []
  | EvGet _ y :: r => y :: gets r
  | _ :: r => gets r
  end.

(** Local entries present after a run: old ones, or copies of taken items. *)
Definition fs_from (dest : string) (fs0 : list (string * nat)) (taken : list string)
    (fs : list (string * nat)) : Prop :=
  forall e, In e fs -> In e fs0 \/ exists y, In y taken /\ fst e = join dest (basename y).

Definition pool_event (e : event) : bool :=
  match e with EvGet _ _ | EvWrite _ _ => true | _ => false end.

(** Invariant of the pool: FIFO delivery, files only for taken items,
    a worker that left its loop saw the queue empty for good, and only
    queue and file events are logged. *)
Definition pool_inv (dest : string) (q0 : list string) (w0 : World)
    (st : list wpc * list string * World) : Prop :=
  let '(pcs, q, w) := st in
  exists evs, w_log w = (w_log w0 ++ evs)%list /\ (gets evs ++ q)%list = q0 /\
              fs_from dest (w_fs w0) (gets evs) (w_fs w) /\
              (In WDone pcs -> q = []) /\ forallb pool_event evs = true.

(** Outcome of a setter run before [_set_s3_secret_key]: it returns with
    [S3_SECRET] untouched, or raises [ValueError]. *)
Definition keeps_secret (w : World) (r : res CW unit) : Prop :=
  match r with
  | Ok _ (_, w') => env_lookup "S3_SECRET" (w_env w') = env_lookup "S3_SECRET" (w_env w)
  | Raise (ValueError _) _ => True
  | _ => False
  end.

(** [w'] keeps the environment of [w] and every local entry of [w]: new
    entries are only put in front. *)
Definition grows (w w' : World) : Prop :=
  (exists pre, w_fs w' = (pre ++ w_fs w)%list) /\ w_env w' = w_env w.

(** Local paths [dest/basename(y)] for [y] in [q]. *)
Definition dest_path (dest : string) (q : list string) (path : string) : Prop :=
  exists y, In y q /\ path = join dest (basename y).

(** [w'] keeps the environment of [w] and adds local entries in front, all
    at paths satisfying [P]. *)
Definition grows_at (P : string -> Prop) (w w' : World) : Prop :=
  (exists pre, w_fs w' = (pre ++ w_fs w)%list /\ Forall (fun e => P (fst e)) pre) /\
  w_env w' = w_env w.

(** Pool state of a single worker that is not waiting on an empty queue. *)
Definition single_ok (st : list wpc * list string * World) : Prop :=
  let '(pcs, q, _) := st in exists pc, pcs = [pc] /\ (pc = WGet -> q <> []).

End Props.

(* ------------------------------------------------------------------ *)
(** ** Facts about the model *)

Module Facts.
Import OsPath Download Reader Props.

Ltac monad_simpl :=
  repeat (unfold bind, ret, raise, get, put, try_except in *; cbn beta iota zeta in *).

Lemma split_snd (p : string) : snd (split p) = basename p.
Proof.
  unfold split, basename. destruct (split_last_slash p) as [h t].
  destruct (negb (String.eqb h "") && negb (all_slashes (list_ascii_of_string h))); reflexivity.
Qed.

Lemma list_files_loop_spec (listing q files : list string) :
  list_files_loop listing q files =
  ((q ++ filter (fun x => negb (is_marker x)) listing)%list,
   (files ++ map basename (filter (fun x => negb (is_marker x)) listing))%list).
Proof.
  revert q files; induction listing as [|x l IH]; intros q files; simpl.
  - now rewrite !app_nil_r.
  - destruct (negb (is_marker x)); rewrite IH.
    + now rewrite split_snd, <- !app_assoc.
    + reflexivity.
Qed.

(** What a constructed [ParquetFromS3] holds. *)
Lemma new_ParquetFromS3_ok (conn : S3FileSystem) (parent uri : string) (w : World)
    (p : ParquetFromS3) (w1 : World) :
  new_ParquetFromS3 (Some conn) parent uri w = Ok p w1 ->
  exists listing,
    s3_ls conn ("s3://" ++ uri) = Some listing /\
    p_connection p = conn /\ p_uri p = uri /\
    p_destination_path p = join parent (basename uri) /\
    p_num_of_processes p = w_cpus w /\
    p_queue p = filter (fun x => negb (is_marker x)) listing /\
    p_files_to_download p = map basename (filter (fun x => negb (is_marker x)) listing).
Proof.
  unfold new_ParquetFromS3, _set_connection_to_s3, _set_destination_directory,
    _create_list_of_files_to_download, log_event, path_exists, mkdir.
  monad_simpl.
  intros H.
  destruct (String.eqb parent ""); [discriminate H|].
  rewrite split_snd in H; cbn in H.
  destruct (fs_lookup (join parent (basename uri)) _); cbn in H; revert H;
    (destruct (s3_ls conn _) as [listing|] eqn:Hls; [|discriminate]);
    rewrite list_files_loop_spec; intros H; inversion H; subst; clear H;
    exists listing; cbn; repeat split; try exact Hls.
Qed.


Lemma gets_app (a b : list event) : gets (a ++ b) = (gets a ++ gets b)%list.
Proof.
  induction a as [|e a IH]; [reflexivity|].
  destruct e; simpl; rewrite ?IH; reflexivity.
Qed.


Lemma fs_from_refl dest fs0 taken : fs_from dest fs0 taken fs0.
Proof. intros e He; now left. Qed.

Lemma fs_from_trans dest fs0 fs1 fs2 t1 t2 :
  fs_from dest fs0 t1 fs1 -> fs_from dest fs1 t2 fs2 -> fs_from dest fs0 (t1 ++ t2) fs2.
Proof.
  intros H1 H2 e He. destruct (H2 e He) as [He1|[y [Hy Hf]]].
  - destruct (H1 e He1) as [He0|[y [Hy Hf]]]; [now left|].
    right; exists y; split; [apply in_or_app; now left|exact Hf].
  - right; exists y; split; [apply in_or_app; now right|exact Hf].
Qed.


Lemma pool_events_app (a b : list event) :
  forallb pool_event a = true -> forallb pool_event b = true ->
  forallb pool_event (a ++ b) = true.
Proof. intros Ha Hb; rewrite forallb_app, Ha, Hb; reflexivity. Qed.

Lemma copy_object_spec conn dest i x w ok w' :
  copy_object conn dest i x w = (ok, w') ->
  exists evs, w_log w' = (w_log w ++ evs)%list /\ gets evs = [x] /\
              fs_from dest (w_fs w) [x] (w_fs w') /\ forallb pool_event evs = true.
Proof.
  unfold copy_object, log_event, next_read, write_file, set_fs, log_event; cbn.
  destruct (w_net w) as [|o rest]; [|destruct o]; cbn;
    try (destruct (s3_size conn x) as [n|]); intros H; inversion H; subst; clear H; cbn;
    let finish :=
      (split; [now rewrite <- ?app_assoc|split; [reflexivity|split; [|reflexivity]]]);
      first
        [ apply fs_from_refl
        | intros e [He|He]; [right; exists x; split; [now left|now subst e]|now left] ] in
    first
      [ exists [EvGet i x; EvWrite (join dest (basename x)) n]; finish
      | exists [EvGet i x; EvWrite (join dest (basename x)) 0]; finish
      | exists [EvGet i x]; finish ].
Qed.

Lemma in_set_nth {A} (l : list A) i x a : In a (set_nth l i x) -> a = x \/ In a l.
Proof.
  revert i; induction l as [|y l IH]; intros [|i]; simpl; try tauto.
  - intros [H|H]; [now left|now right; right].
  - intros [H|H]; [now right; left|]. destruct (IH i H); [now left|now right; right].
Qed.


Lemma pool_inv_init dest n q0 w0 : pool_inv dest q0 w0 (repeat WLoop n, q0, w0).
Proof.
  exists []; rewrite app_nil_r; repeat split; try apply fs_from_refl.
  intros H; apply repeat_spec in H; discriminate.
Qed.

Lemma worker_step_inv conn dest i q0 w0 st :
  pool_inv dest q0 w0 st -> pool_inv dest q0 w0 (worker_step conn dest i st).
Proof.
  destruct st as [[pcs q] w]. intros (evs & Hlog & Hq & Hfs & Hdone & Hev). unfold worker_step.
  destruct (nth_error pcs i) as [[| | |]|] eqn:Hpc; try (exists evs; now repeat split).
  - destruct q as [|x q'].
    + exists evs; repeat split; auto.
    + exists evs; repeat split; auto.
      intros Hin; apply in_set_nth in Hin as [Hin|Hin]; [discriminate|now apply Hdone].
  - destruct q as [|x q']; [exists evs; now repeat split|].
    destruct (copy_object conn dest i x w) as [ok w'] eqn:Hc.
    apply copy_object_spec in Hc as (evs' & Hlog' & Hg & Hfs' & Hev').
    exists (evs ++ evs')%list; repeat split.
    + now rewrite Hlog', Hlog, app_assoc.
    + rewrite gets_app, Hg, <- app_assoc; exact Hq.
    + rewrite gets_app, Hg; eapply fs_from_trans; eauto.
    + intros Hin; apply in_set_nth in Hin as [Hin|Hin].
      * destruct ok; discriminate.
      * specialize (Hdone Hin); discriminate.
    + now apply pool_events_app.
Qed.

Lemma run_sched_inv conn dest sched q0 w0 st :
  pool_inv dest q0 w0 st -> pool_inv dest q0 w0 (run_sched conn dest sched st).
Proof.
  unfold run_sched; revert st; induction sched as [|i sched IH]; intros st H; simpl.
  - exact H.
  - apply IH, worker_step_inv, H.
Qed.

Lemma drain_alone_spec conn dest i pc q w pc' q' w' :
  drain_alone conn dest i pc q w = (pc', q', w') ->
  exists evs, w_log w' = (w_log w ++ evs)%list /\ (gets evs ++ q')%list = q /\
              fs_from dest (w_fs w) (gets evs) (w_fs w') /\
              (pc' = WDone -> pc = WDone \/ q' = []) /\ forallb pool_event evs = true.
Proof.
  revert pc w; induction q as [|x q IH]; intros pc w.
  - destruct pc; simpl; intros H; inversion H; subst; clear H;
      exists []; rewrite app_nil_r; repeat split; try apply fs_from_refl; auto.
  - destruct pc; simpl;
      try (intros H; inversion H; subst; clear H;
           exists []; rewrite app_nil_r; repeat split; try apply fs_from_refl; now auto);
      destruct (copy_object conn dest i x w) as [ok w1] eqn:Hc;
      apply copy_object_spec in Hc as (evs1 & Hlog1 & Hg1 & Hfs1 & Hev1);
      (destruct ok;
       [ intros H; apply IH in H as (evs2 & Hlog2 & Hq2 & Hfs2 & Hd2 & Hev2);
         exists (evs1 ++ evs2)%list; repeat split;
         [ now rewrite Hlog2, Hlog1, app_assoc
         | now rewrite gets_app, Hg1, <- app_assoc, Hq2
         | rewrite gets_app, Hg1; eapply fs_from_trans; eauto
         | intros Hd; destruct (Hd2 Hd) as [E|E]; [discriminate|now right]
         | now apply pool_events_app ]
       | intros H; inversion H; subst; clear H;
         exists evs1; repeat split;
         [ exact Hlog1 | now rewrite Hg1 | now rewrite Hg1 | discriminate | exact Hev1 ] ]).
Qed.

Lemma complete_inv conn dest pcs i q w pcs' q' w' :
  complete conn dest i pcs q w = (pcs', q', w') ->
  (In WDone pcs -> q = []) ->
  exists evs, w_log w' = (w_log w ++ evs)%list /\ (gets evs ++ q')%list = q /\
              fs_from dest (w_fs w) (gets evs) (w_fs w') /\
              (In WDone pcs' -> q' = []) /\ forallb pool_event evs = true.
Proof.
  revert i q w pcs'; induction pcs as [|pc pcs IH]; intros i q w pcs'; simpl.
  - intros H _; inversion H; subst; clear H.
    exists []; rewrite app_nil_r; repeat split; try apply fs_from_refl; simpl; tauto.
  - destruct (drain_alone conn dest i pc q w) as [[pc1 q1] w1] eqn:Hd.
    destruct (complete conn dest (S i) pcs q1 w1) as [[pcs2 q2] w2] eqn:Hc.
    intros H Hpre; inversion H; subst; clear H.
    apply drain_alone_spec in Hd as (evs1 & Hlog1 & Hq1 & Hfs1 & Hdn1 & Hev1).
    subst q.
    assert (Hpre' : In WDone pcs -> q1 = []).
    { intros Hin. specialize (Hpre (or_intror Hin)). now apply app_eq_nil in Hpre. }
    apply IH in Hc as (evs2 & Hlog2 & Hq2 & Hfs2 & Hdn2 & Hev2); [|exact Hpre'].
    exists (evs1 ++ evs2)%list; repeat split.
    + now rewrite Hlog2, Hlog1, app_assoc.
    + now rewrite gets_app, <- app_assoc, Hq2.
    + rewrite gets_app; eapply fs_from_trans; eauto.
    + intros [Hin|Hin]; [|now apply Hdn2].
      subst pc1.
      assert (E1 : q1 = []).
      { destruct (Hdn1 eq_refl) as [E|E]; [|exact E].
        subst pc. specialize (Hpre (or_introl eq_refl)). now apply app_eq_nil in Hpre. }
      rewrite E1 in Hq2. now apply app_eq_nil in Hq2.
    + now apply pool_events_app.
Qed.

Lemma pool_run_inv conn dest n sched q0 w0 pcs q w :
  pool_run conn dest n sched q0 w0 = (pcs, q, w) ->
  exists evs, w_log w = (w_log w0 ++ evs)%list /\ (gets evs ++ q)%list = q0 /\
              fs_from dest (w_fs w0) (gets evs) (w_fs w) /\
              (In WDone pcs -> q = []) /\ forallb pool_event evs = true.
Proof.
  unfold pool_run.
  pose proof (run_sched_inv conn dest sched q0 w0 _ (pool_inv_init dest n q0 w0)) as Hi.
  destruct (run_sched conn dest sched (repeat WLoop n, q0, w0)) as [[pcs1 q1] w1].
  destruct Hi as (evs1 & Hlog1 & Hq1 & Hfs1 & Hdn1 & Hev1).
  intros Hc; apply complete_inv in Hc as (evs2 & Hlog2 & Hq2 & Hfs2 & Hdn2 & Hev2);
    [|exact Hdn1].
  exists (evs1 ++ evs2)%list; repeat split.
  - now rewrite Hlog2, Hlog1, app_assoc.
  - now rewrite gets_app, <- app_assoc, Hq2.
  - rewrite gets_app; eapply fs_from_trans; eauto.
  - exact Hdn2.
  - now apply pool_events_app.
Qed.

Lemma pop_sched_world w sched w0 :
  pop_sched w = (sched, w0) -> w_log w0 = w_log w /\ w_fs w0 = w_fs w.
Proof.
  unfold pop_sched; destruct (w_sched w); intros H; inversion H; subst; now split.
Qed.

(** [download_files_from_s3] never raises in the parent; what it logs and
    writes comes from the pool invariant. *)
Lemma download_files_from_s3_spec p w :
  (forall e w', download_files_from_s3 p w <> Raise e w') /\
  exists q evs,
    w_log (res_world (download_files_from_s3 p w)) = (w_log w ++ evs)%list /\
    (gets evs ++ q)%list = p_queue p /\
    fs_from (p_destination_path p) (w_fs w) (gets evs)
            (w_fs (res_world (download_files_from_s3 p w))) /\
    forallb pool_event evs = true /\
    (forall p' w', download_files_from_s3 p w = Ok p' w' -> p' = with_queue p q).
Proof.
  unfold download_files_from_s3.
  destruct (pop_sched w) as [sched w0] eqn:Hpop.
  apply pop_sched_world in Hpop as [Hl0 Hf0].
  destruct (pool_run _ _ _ sched (p_queue p) w0) as [[pcs q] w1] eqn:Hr.
  apply pool_run_inv in Hr as (evs & Hlog & Hq & Hfs & _ & Hev).
  rewrite Hl0 in Hlog; rewrite Hf0 in Hfs.
  split.
  - destruct (existsb blocked pcs); discriminate.
  - exists q, evs. destruct (existsb blocked pcs); cbn; repeat split; auto;
      intros p' w' H; inversion H; reflexivity.
Qed.

Definition loop_or_done (pc : wpc) : Prop := pc = WLoop \/ pc = WDone.

Lemma worker_step_empty conn dest i pcs w :
  Forall loop_or_done pcs ->
  exists pcs', worker_step conn dest i (pcs, [], w) = (pcs', [], w) /\
               Forall loop_or_done pcs'.
Proof.
  intros H; unfold worker_step.
  destruct (nth_error pcs i) as [[| | |]|] eqn:Hpc; try (eexists; split; [reflexivity|exact H]).
  - eexists; split; [reflexivity|].
    apply Forall_forall; intros a Ha.
    apply in_set_nth in Ha as [Ha|Ha]; [subst; now right|].
    now apply (proj1 (Forall_forall _ _) H).
Qed.

Lemma run_sched_empty conn dest sched pcs w :
  Forall loop_or_done pcs ->
  exists pcs', run_sched conn dest sched (pcs, [], w) = (pcs', [], w) /\
               Forall loop_or_done pcs'.
Proof.
  unfold run_sched; revert pcs; induction sched as [|i sched IH]; intros pcs H;
    cbn [fold_left].
  - exists pcs; now split.
  - destruct (worker_step_empty conn dest i pcs w H) as (pcs' & E & F).
    rewrite E. apply IH, F.
Qed.

Lemma complete_empty conn dest i pcs w :
  Forall loop_or_done pcs ->
  exists pcs', complete conn dest i pcs [] w = (pcs', [], w) /\ existsb blocked pcs' = false.
Proof.
  revert i; induction pcs as [|pc pcs IH]; intros i H; simpl.
  - exists []; now split.
  - inversion H as [|? ? Hpc Hrest]; subst.
    destruct (IH (S i) Hrest) as (pcs' & Hc & Hb).
    destruct Hpc; subst pc; simpl; rewrite Hc; eexists; split; try reflexivity; exact Hb.
Qed.

(** A pool started on an empty queue takes nothing, writes nothing and
    every worker leaves its loop. *)
Lemma download_files_from_s3_empty p w :
  p_queue p = [] ->
  exists w', download_files_from_s3 p w = Ok p w' /\ w_log w' = w_log w /\ w_fs w' = w_fs w.
Proof.
  intros Hq. unfold download_files_from_s3, pool_run.
  destruct (pop_sched w) as [sched w0] eqn:Hpop.
  apply pop_sched_world in Hpop as [Hl0 Hf0].
  rewrite Hq.
  assert (Hinit : Forall loop_or_done (repeat WLoop (p_num_of_processes p))).
  { apply Forall_forall; intros a Ha; apply repeat_spec in Ha; now left. }
  destruct (run_sched_empty (p_connection p) (p_destination_path p) sched _ w0 Hinit)
    as (pcs1 & Hr & Hf).
  rewrite Hr.
  destruct (complete_empty (p_connection p) (p_destination_path p) 0 pcs1 w0 Hf)
    as (pcs2 & Hc & Hb).
  rewrite Hc, Hb. exists w0; repeat split; auto.
  destruct p; cbn in *; now subst.
Qed.

Lemma basename_no_slash (p : string) : starts_with slash (basename p) = false.
Proof.
  unfold basename. induction p as [|c rest IH]; [reflexivity|].
  cbn [split_last_slash].
  destruct (split_last_slash rest) as [h t] eqn:Hs; cbn [snd] in IH.
  destruct h.
  - destruct (Ascii.eqb c slash) eqn:Hc; cbn [snd]; [exact IH|].
    unfold starts_with; rewrite Ascii.eqb_sym; exact Hc.
  - exact IH.
Qed.

Lemma string_app_cancel (s a b : string) : s ++ a = s ++ b -> a = b.
Proof.
  induction s as [|c s IH]; simpl; [easy|]. intros H; injection H; exact IH.
Qed.

Lemma join_inj (dest a b : string) :
  starts_with slash a = false -> starts_with slash b = false ->
  join dest a = join dest b -> a = b.
Proof.
  unfold join; intros Ha Hb; rewrite Ha, Hb.
  destruct (String.eqb dest "" || ends_with_slash dest).
  - apply string_app_cancel.
  - intros H; apply string_app_cancel in H; simpl in H; now injection H.
Qed.

Lemma attempts_app a b : attempts (a ++ b) = attempts a + attempts b.
Proof. unfold attempts; now rewrite filter_app, length_app. Qed.

Lemma attempts_pool evs : forallb pool_event evs = true -> attempts evs = 0.
Proof.
  induction evs as [|e evs IH]; [reflexivity|].
  simpl; intros H; apply andb_prop in H as [He Hr].
  destruct e; try discriminate; apply IH, Hr.
Qed.

Lemma new_ParquetFromS3_cases conn parent uri w :
  String.eqb parent "" = false ->
  w_log (res_world (new_ParquetFromS3 (Some conn) parent uri w)) =
    (w_log w ++ [EvNewDownload; EvLs ("s3://" ++ uri)])%list /\
  match new_ParquetFromS3 (Some conn) parent uri w with
  | Ok _ _ => True
  | Raise e _ => e = FileNotFoundError ("s3://" ++ uri)
  | Hang _ => False
  end.
Proof.
  intros Hp.
  unfold new_ParquetFromS3, _set_connection_to_s3, _set_destination_directory,
    _create_list_of_files_to_download, log_event, path_exists, mkdir.
  monad_simpl. rewrite Hp; cbn.
  destruct (fs_lookup _ _); cbn; destruct (s3_ls conn _); cbn;
    try (destruct (list_files_loop _ _ _); cbn);
    (split; [now rewrite <- app_assoc|reflexivity]).
Qed.

Lemma test_connection_spec c w s3 :
  c_s3_connection c = Some s3 ->
  exists w', Reader.test_connection (c, w) =
             Ok (s3_exists s3 ("s3://" ++ join (c_bucket c) (fst (split (c_uri c))))) (c, w') /\
             w_log w' = (w_log w ++ [EvExists ("s3://" ++ join (c_bucket c) (fst (split (c_uri c))))])%list /\
             w_fs w' = w_fs w.
Proof.
  intros Hs. unfold Reader.test_connection, Reader.getC, Reader.liftW, log_event.
  monad_simpl. destruct (split (c_uri c)) as [pp t]; cbn. rewrite Hs; cbn.
  eexists; repeat split; reflexivity.
Qed.

(** The retry loop returns only after exactly one attempt: the first
    [ParquetFromS3] is built and its pool run returns without raising. *)
Lemma retry_loop_ok t c w n c' w' s3 :
  c_s3_connection c = Some s3 -> String.eqb (c_destination_dir c) "" = false ->
  Reader.retry_loop (S t) (c, w) = Ok n (c', w') ->
  n = S t /\ (exists p, c_download_process c' = Some p) /\
  attempts (w_log w') = attempts (w_log w) + 1 /\
  c_full_download_path c' = c_full_download_path c.
Proof.
  intros Hs Hd. cbn [Reader.retry_loop].
  unfold Reader.getC, Reader.liftW, Reader.modifyC. monad_simpl. rewrite Hs.
  pose proof (new_ParquetFromS3_cases s3 (c_destination_dir c) (c_full_download_path c) w Hd)
    as [Hlog Hcase].
  destruct (new_ParquetFromS3 (Some s3) (c_destination_dir c) (c_full_download_path c) w)
    as [p w1|e w1|w1]; cbn in Hlog, Hcase |- *.
  - pose proof (download_files_from_s3_spec p w1) as [Hnr (q & evs & Hl2 & _ & _ & Hev & _)].
    destruct (download_files_from_s3 p w1) as [p' w2|e w2|w2]; cbn in Hl2 |- *.
    + intros H; inversion H; subst; clear H.
      repeat split; [eexists; reflexivity|].
      rewrite Hl2, Hlog, !attempts_app, (attempts_pool evs Hev). cbn. lia.
    + exfalso; eapply Hnr; reflexivity.
    + discriminate.
  - subst e; cbn. discriminate.
  - contradiction.
Qed.

Lemma count_occ_filter (f : string -> bool) (l : list string) (x : string) :
  f x = true -> count_occ string_dec (filter f l) x = count_occ string_dec l x.
Proof.
  intros Hx; induction l as [|a l IH]; [reflexivity|]. simpl.
  destruct (f a) eqn:Ha.
  - simpl. destruct (string_dec a x); rewrite IH; reflexivity.
  - destruct (string_dec a x) as [E|E]; [subst; congruence|exact IH].
Qed.

Lemma marker_basename x y :
  is_marker x = true -> is_marker y = false -> basename x <> basename y.
Proof. unfold is_marker; intros Hx Hy E; rewrite E in Hx; congruence. Qed.

Lemma set_uri_path_keeps c w v : keeps_secret w (_set_uri_path v (c, w)).
Proof.
  unfold keeps_secret, _set_uri_path, modifyC; monad_simpl.
  destruct v as [|u|n]; cbn; try rewrite orb_true_r; cbn; try exact I; reflexivity.
Qed.

Lemma set_bucket_keeps c w v : keeps_secret w (_set_bucket v (c, w)).
Proof.
  unfold keeps_secret, _set_bucket, getenv, modifyC; monad_simpl.
  destruct (env_lookup "S3_BUCKET" (w_env w)) as [b|]; cbn;
    [destruct (String.eqb b "")|]; destruct v; cbn; try rewrite orb_true_r; cbn; try exact I; reflexivity.
Qed.

Lemma set_access_key_keeps c w v : keeps_secret w (_set_s3_access_key v (c, w)).
Proof.
  unfold keeps_secret, _set_s3_access_key, getenv, environ_set; monad_simpl.
  destruct (env_lookup "S3_ACCESS" (w_env w)) as [a|]; cbn;
    [destruct (String.eqb a "")|]; destruct v; cbn; try rewrite orb_true_r; cbn;
    try destruct (has_nul _); cbn; try exact I; reflexivity.
Qed.

Lemma bind_ok {S A B} (m : M S A) (k : A -> M S B) s a s' :
  m s = Ok a s' -> bind m k s = k a s'.
Proof. intros H; unfold bind; now rewrite H. Qed.

(** The retry loop raises only the [FileNotFoundError] of the listing:
    its [except download.DownloadError] is never entered. *)
Lemma retry_loop_raise t c w e st s3 :
  c_s3_connection c = Some s3 -> String.eqb (c_destination_dir c) "" = false ->
  Reader.retry_loop (S t) (c, w) = Raise e st -> exists u, e = FileNotFoundError u.
Proof.
  intros Hs Hd. cbn [Reader.retry_loop].
  unfold Reader.getC, Reader.liftW, Reader.modifyC. monad_simpl. rewrite Hs.
  pose proof (new_ParquetFromS3_cases s3 (c_destination_dir c) (c_full_download_path c) w Hd)
    as [_ Hcase].
  destruct (new_ParquetFromS3 (Some s3) (c_destination_dir c) (c_full_download_path c) w)
    as [p w1|e1 w1|w1]; cbn in Hcase |- *.
  - pose proof (download_files_from_s3_spec p w1) as [Hnr _].
    destruct (download_files_from_s3 p w1) as [p' w2|e2 w2|w2]; cbn.
    + discriminate.
    + exfalso; eapply Hnr; reflexivity.
    + discriminate.
  - subst e1; cbn. intros H; injection H as <- _. eauto.
  - contradiction.
Qed.

(** What [_create_download_obj_and_download_file] can end with. *)
Lemma create_outcome c w s3 :
  c_s3_connection c = Some s3 -> String.eqb (c_destination_dir c) "" = false ->
  match _create_download_obj_and_download_file (c, w) with
  | Ok _ (c', w') =>
      (exists p, c_download_process c' = Some p) /\
      attempts (w_log w') = attempts (w_log w) + 1
  | Raise e (_, w') =>
      (e = S3ConnectionError (msg_unreachable (c_full_download_path c)) /\
       attempts (w_log w') = attempts (w_log w)) \/
      exists u, e = FileNotFoundError u
  | Hang _ => True
  end.
Proof.
  intros Hs Hd. destruct (test_connection_spec c w s3 Hs) as (w1 & Ht & Hl1 & _).
  unfold _create_download_obj_and_download_file, Reader.getC. monad_simpl.
  rewrite Ht. cbn beta iota.
  destruct (s3_exists s3 _) eqn:E.
  - destruct (Reader.retry_loop 3 (c, w1)) as [n [c2 w2]|e [c2 w2]|st] eqn:Hr.
    + apply (retry_loop_ok 2 c w1 n c2 w2 s3 Hs Hd) in Hr as (-> & Hp & Ha & _).
      cbn. split; [exact Hp|]. rewrite Ha, Hl1, attempts_app. cbn. lia.
    + right. exact (retry_loop_raise 2 c w1 e (c2, w2) s3 Hs Hd Hr).
    + exact I.
  - cbn. left. split; [reflexivity|]. rewrite Hl1, attempts_app. cbn. lia.
Qed.

End Facts.

(* ------------------------------------------------------------------ *)
(** ** The claims *)

Module Claims.
Import OsPath Download Reader Props Facts Scenario.

Lemma successfully_downloaded_loop_iff dest files fs :
  successfully_downloaded_loop dest files fs = true <->
  Forall (fun name => exists n, fs_lookup (join dest name) fs = Some n /\ 1 < n) files.
Proof.
  induction files as [|f files IH]; simpl.
  - split; auto.
  - destruct (fs_lookup (join dest f) fs) as [n|] eqn:Hl.
    + destruct (Nat.leb n 1) eqn:Hn.
      * split; [discriminate|]. intros H; inversion H as [|? ? (m & Hm & Hlt) _]; subst.
        rewrite Hl in Hm; injection Hm as <-. apply Nat.leb_le in Hn; lia.
      * rewrite IH; split.
        -- intros H; constructor; [|exact H]. exists n; split; [exact Hl|].
           apply Nat.leb_gt in Hn; exact Hn.
        -- intros H; inversion H; assumption.
    + split; [discriminate|]. intros H; inversion H as [|? ? (m & Hm & _) _]; subst.
      rewrite Hl in Hm; discriminate.
Qed.

(** C4: [successfully_downloaded] is true iff every expected file exists at
    [destination_path/name] with a size strictly greater than 1 byte; one
    expected file that is missing, or at most 1 byte, makes it false. *)
Theorem successfully_downloaded_iff :
  forall (p : ParquetFromS3) (fs : list (string * nat)),
    (successfully_downloaded p fs = true <->
     Forall (fun name => exists n, fs_lookup (join (p_destination_path p) name) fs = Some n /\ 1 < n)
            (p_files_to_download p)) /\
    (forall name, In name (p_files_to_download p) ->
       (fs_lookup (join (p_destination_path p) name) fs = None \/
        exists n, fs_lookup (join (p_destination_path p) name) fs = Some n /\ n <= 1) ->
       successfully_downloaded p fs = false).
Proof.
  intros p fs. unfold successfully_downloaded.
  split; [apply successfully_downloaded_loop_iff|].
  intros name Hin Hbad.
  destruct (successfully_downloaded_loop _ _ fs) eqn:Hs; [|reflexivity].
  apply successfully_downloaded_loop_iff in Hs.
  rewrite Forall_forall in Hs. destruct (Hs name Hin) as (n & Hn & Hlt).
  destruct Hbad as [Hb|(m & Hm & Hle)]; rewrite Hn in *; [discriminate|].
  injection Hm as <-; lia.
Qed.

(** C9: when the listing has no non-marker object, the expected-file list
    is empty, [successfully_downloaded] is true whatever the local files,
    and the pool run returns without taking or writing anything. *)
Theorem empty_batch_reports_success :
  forall conn parent uri w p w1,
    new_ParquetFromS3 (Some conn) parent uri w = Ok p w1 ->
    p_files_to_download p = [] ->
    (forall fs, successfully_downloaded p fs = true) /\
    exists w2, download_files_from_s3 p w1 = Ok p w2 /\
               w_log w2 = w_log w1 /\ w_fs w2 = w_fs w1.
Proof.
  intros conn parent uri w p w1 Hnew Hfiles.
  apply new_ParquetFromS3_ok in Hnew as (listing & _ & _ & _ & _ & _ & Hq & Hf).
  split.
  - intros fs; unfold successfully_downloaded; now rewrite Hfiles.
  - apply download_files_from_s3_empty.
    rewrite Hq. rewrite Hfiles in Hf. symmetry in Hf. now apply map_eq_nil in Hf.
Qed.

Lemma empty_batch_reports_success_witness :
  exists p w1,
    (new_ParquetFromS3 (Some store_markers_only) "/out" "b/data.parquet"
       (world store_markers_only [] [] 4) = Ok p w1 /\ p_files_to_download p = []) /\
    ((forall fs, successfully_downloaded p fs = true) /\
     exists w2, download_files_from_s3 p w1 = Ok p w2 /\
                w_log w2 = w_log w1 /\ w_fs w2 = w_fs w1).
Proof.
  do 2 eexists. split; [split; reflexivity|].
  apply (empty_batch_reports_success store_markers_only "/out" "b/data.parquet"
           (world store_markers_only [] [] 4)); reflexivity.
Defined.

(** C6: objects whose base name starts with ['_'] are neither queued nor
    expected, and no local entry is created for them at
    [destination_path/basename]; every other listed object is queued as many
    times as it is listed (once, for a listing without repetition) and
    gives one expected name, its base name. *)
Theorem marker_objects_never_fetched :
  forall conn parent uri w p w1 listing,
    new_ParquetFromS3 (Some conn) parent uri w = Ok p w1 ->
    s3_ls conn ("s3://" ++ uri) = Some listing ->
    (forall x, In x listing -> is_marker x = true ->
       ~ In x (p_queue p) /\ ~ In (basename x) (p_files_to_download p)) /\
    (forall x, is_marker x = false ->
       count_occ string_dec (p_queue p) x = count_occ string_dec listing x) /\
    p_files_to_download p = map basename (p_queue p) /\
    (forall x n, is_marker x = true ->
       In (join (p_destination_path p) (basename x), n)
          (w_fs (res_world (download_files_from_s3 p w1))) ->
       In (join (p_destination_path p) (basename x), n) (w_fs w1)).
Proof.
  intros conn parent uri w p w1 listing Hnew Hls.
  apply new_ParquetFromS3_ok in Hnew as (listing' & Hls' & _ & _ & _ & _ & Hq & Hf).
  rewrite Hls in Hls'; injection Hls' as <-.
  split; [|split; [|split]].
  - intros x Hin Hm; rewrite Hq, Hf; split.
    + intros Hx; apply filter_In in Hx as [_ Hx]; rewrite Hm in Hx; discriminate.
    + intros Hx; apply in_map_iff in Hx as (y & Hy & Hyin).
      apply filter_In in Hyin as [_ Hyin]; apply negb_true_iff in Hyin.
      exact (marker_basename x y Hm Hyin (eq_sym Hy)).
  - intros x Hm; rewrite Hq; apply count_occ_filter; now rewrite Hm.
  - now rewrite Hf, Hq.
  - intros x n Hm Hin.
    destruct (download_files_from_s3_spec p w1) as [_ (q & evs & _ & Hgq & Hfs & _ & _)].
    destruct (Hfs _ Hin) as [Hold|(y & Hy & Heq)]; [exact Hold|].
    exfalso. cbn in Heq.
    apply join_inj in Heq; try apply basename_no_slash.
    assert (Hyq : In y (p_queue p)) by (rewrite <- Hgq; apply in_or_app; now left).
    rewrite Hq in Hyq; apply filter_In in Hyq as [_ Hyq]; apply negb_true_iff in Hyq.
    exact (marker_basename x y Hm Hyq Heq).
Qed.

Lemma marker_objects_never_fetched_witness :
  exists p w1,
    (new_ParquetFromS3 (Some store_data) "/out" "b/data.parquet" (world store_data [] [] 4)
       = Ok p w1 /\
     s3_ls store_data ("s3://" ++ "b/data.parquet") =
       Some ["b/data.parquet/part-0001"; "b/data.parquet/part-0002"; "b/data.parquet/_SUCCESS"]) /\
    ((forall x, In x ["b/data.parquet/part-0001"; "b/data.parquet/part-0002";
                      "b/data.parquet/_SUCCESS"] -> is_marker x = true ->
        ~ In x (p_queue p) /\ ~ In (basename x) (p_files_to_download p)) /\
     (forall x, is_marker x = false ->
        count_occ string_dec (p_queue p) x =
        count_occ string_dec ["b/data.parquet/part-0001"; "b/data.parquet/part-0002";
                              "b/data.parquet/_SUCCESS"] x) /\
     p_files_to_download p = map basename (p_queue p) /\
     (forall x n, is_marker x = true ->
        In (join (p_destination_path p) (basename x), n)
           (w_fs (res_world (download_files_from_s3 p w1))) ->
        In (join (p_destination_path p) (basename x), n) (w_fs w1))).
Proof.
  do 2 eexists. split; [split; reflexivity|].
  apply (marker_objects_never_fetched store_data "/out" "b/data.parquet"
           (world store_data [] [] 4)); reflexivity.
Defined.

(** C10: with [S3_SECRET] unset, [_set_s3_secret_key] raises [ValueError]
    for every string, and runs the branch that stores the value into
    [os.environ] exactly for non-strings; so [Connection(...)] with a
    string [secret_key] raises [ValueError]. [_set_uri_path] accepts every
    string, the empty one included. *)
Theorem secret_key_branches :
  forall w, env_lookup "S3_SECRET" (w_env w) = None ->
    (forall c s, exists m st, _set_s3_secret_key (PyStr s) (c, w) = Raise (ValueError m) st) /\
    (forall c v, isinstance_str v = false ->
       _set_s3_secret_key v (c, w) = environ_set "S3_SECRET" v (c, w)) /\
    (forall c uri bucket access_key s destination_dir, exists m st,
       __init__ uri bucket access_key (PyStr s) destination_dir (c, w) = Raise (ValueError m) st) /\
    (forall c s, _set_uri_path (PyStr s) (c, w) = Ok tt (set_uri s c, w)).
Proof.
  intros w Hw.
  assert (Hsec : forall c s w', env_lookup "S3_SECRET" (w_env w') = None ->
            exists m st, _set_s3_secret_key (PyStr s) (c, w') = Raise (ValueError m) st).
  { intros c s w' Hw'. unfold _set_s3_secret_key, getenv; monad_simpl. rewrite Hw'.
    do 2 eexists; reflexivity. }
  split; [|split; [|split]].
  - intros c s; apply Hsec, Hw.
  - intros c v Hv. unfold _set_s3_secret_key, getenv; monad_simpl. rewrite Hw. cbn.
    rewrite Hv. destruct v; try discriminate; reflexivity.
  - intros c uri bucket access_key s destination_dir. unfold __init__, bind.
    pose proof (set_uri_path_keeps c w uri) as H1.
    destruct (_set_uri_path uri (c, w)) as [[] [c1 w1]|e1 st1|st1];
      [|destruct e1; try contradiction; do 2 eexists; reflexivity|contradiction].
    cbn in H1; rewrite Hw in H1.
    pose proof (set_bucket_keeps c1 w1 bucket) as H2.
    destruct (_set_bucket bucket (c1, w1)) as [[] [c2 w2]|e2 st2|st2];
      [|destruct e2; try contradiction; do 2 eexists; reflexivity|contradiction].
    cbn in H2; rewrite H1 in H2.
    pose proof (set_access_key_keeps c2 w2 access_key) as H3.
    destruct (_set_s3_access_key access_key (c2, w2)) as [[] [c3 w3]|e3 st3|st3];
      [|destruct e3; try contradiction; do 2 eexists; reflexivity|contradiction].
    cbn in H3; rewrite H2 in H3.
    destruct (Hsec c3 s w3 H3) as (m & st & E). rewrite E. eauto.
  - intros c s. unfold _set_uri_path, modifyC; cbn. rewrite orb_true_r. reflexivity.
Qed.

Lemma secret_key_branches_witness :
  env_lookup "S3_SECRET" (w_env world_no_secret) = None /\
    (forall c s, exists m st,
       _set_s3_secret_key (PyStr s) (c, world_no_secret) = Raise (ValueError m) st) /\
    (forall c v, isinstance_str v = false ->
       _set_s3_secret_key v (c, world_no_secret) = environ_set "S3_SECRET" v (c, world_no_secret)) /\
    (forall c uri bucket access_key s destination_dir, exists m st,
       __init__ uri bucket access_key (PyStr s) destination_dir (c, world_no_secret)
         = Raise (ValueError m) st) /\
    (forall c s, _set_uri_path (PyStr s) (c, world_no_secret) = Ok tt (set_uri s c, world_no_secret)).
Proof.
  split; [reflexivity|].
  apply (secret_key_branches world_no_secret); reflexivity.
Defined.

(** C1, counterexample: the first attempt writes [part-0001] with 0 bytes
    (a truncated read); the validation fails and the call raises at once,
    after one attempt, although a fresh attempt in the same world would
    succeed. *)
Lemma truncated_first_attempt_not_retried :
  match run "data.parquet" (world store_data [TTrunc] [] 4) with
  | Raise (S3ConnectionError m) (_, w) =>
      m = msg_not_all /\ attempts (w_log w) = 1 /\
      In ("/out/data.parquet/part-0001", 0) (w_fs w)
  | _ => False
  end /\
  (exists st, run "data.parquet" (world store_data [] [] 4) = Ok tt st).
Proof.
  split.
  - vm_compute. split; [reflexivity|split; [reflexivity|]]. simpl; tauto.
  - eexists; vm_compute; reflexivity.
Qed.

(** C1 (amended): validation runs once, after the download loop has left
    with one attempt: when the download phase returns, exactly one
    [ParquetFromS3] has been built, and if its completeness check fails
    [download_and_convert_to_json] raises [S3ConnectionError] with the
    "did not successfully download all files" message, without retrying. *)
Theorem validation_failure_raises_without_retry :
  forall c w c' w' s3,
    c_s3_connection c = Some s3 ->
    String.eqb (c_destination_dir c) "" = false ->
    _create_download_obj_and_download_file (c, w) = Ok tt (c', w') ->
    exists p, c_download_process c' = Some p /\
      attempts (w_log w') = attempts (w_log w) + 1 /\
      (successfully_downloaded p (w_fs w') = false ->
       download_and_convert_to_json (c, w) = Raise (S3ConnectionError msg_not_all) (c', w')).
Proof.
  intros c w c' w' s3 Hs Hd H.
  pose proof (create_outcome c w s3 Hs Hd) as Ho. rewrite H in Ho.
  destruct Ho as [[p Hp] Ha].
  exists p. split; [exact Hp|split; [exact Ha|]].
  intros Hsd. unfold download_and_convert_to_json.
  rewrite (bind_ok _ _ _ _ _ H).
  unfold Reader.getC, Reader.liftW, get. monad_simpl.
  rewrite Hp. cbn. rewrite Hsd. reflexivity.
Qed.

Lemma validation_failure_raises_without_retry_witness :
  exists c' w',
    (c_s3_connection (conn_b "data.parquet" store_data) = Some store_data /\
     String.eqb (c_destination_dir (conn_b "data.parquet" store_data)) "" = false /\
     _create_download_obj_and_download_file
       (conn_b "data.parquet" store_data, world store_data [TTrunc] [] 4) = Ok tt (c', w')) /\
    exists p, c_download_process c' = Some p /\
      attempts (w_log w') = attempts (w_log (world store_data [TTrunc] [] 4)) + 1 /\
      (successfully_downloaded p (w_fs w') = false ->
       download_and_convert_to_json (conn_b "data.parquet" store_data, world store_data [TTrunc] [] 4)
         = Raise (S3ConnectionError msg_not_all) (c', w')).
Proof.
  do 2 eexists. split; [split; [reflexivity|split; [reflexivity|vm_compute; reflexivity]]|].
  apply (validation_failure_raises_without_retry (conn_b "data.parquet" store_data)
           (world store_data [TTrunc] [] 4) _ _ store_data); [reflexivity|reflexivity|].
  vm_compute; reflexivity.
Defined.

(** C5, counterexample: bucket [b] exists but the prefix [b/data.parquet]
    does not; the existence check (on [b/]) passes, a [ParquetFromS3] is
    built, and its listing raises [FileNotFoundError], not
    [S3ConnectionError]. *)
Lemma missing_prefix_passes_existence_check :
  match run "data.parquet" (world store_no_prefix [] [] 4) with
  | Raise (FileNotFoundError u) (_, w) =>
      u = "s3://b/data.parquet" /\ attempts (w_log w) = 1 /\ listings (w_log w) = 1
  | _ => False
  end.
Proof. vm_compute. repeat split. Qed.

(** C5 (amended): the existence check is on the parent of the prefix,
    [s3://bucket/<head of os.path.split(uri)>]. When that path does not
    exist, [_create_download_obj_and_download_file] raises
    [S3ConnectionError] naming the full path, after that one existence
    query, with no [ParquetFromS3] built and the local files untouched.
    When it exists but the prefix cannot be listed, the check passes, one
    [ParquetFromS3] construction starts (one attempt) and, with a non-empty
    destination directory (its download subdirectory existing or created
    by [os.mkdir]), the listing of the prefix raises [FileNotFoundError],
    which the retry loop does not catch; the [Connection] is left as it
    was. *)
Theorem existence_check_on_parent_directory :
  forall c w s3,
    c_s3_connection c = Some s3 ->
    (s3_exists s3 ("s3://" ++ join (c_bucket c) (fst (split (c_uri c)))) = false ->
     exists w',
       _create_download_obj_and_download_file (c, w) =
         Raise (S3ConnectionError (msg_unreachable (c_full_download_path c))) (c, w') /\
       w_log w' = (w_log w ++ [EvExists ("s3://" ++ join (c_bucket c) (fst (split (c_uri c))))])%list /\
       attempts (w_log w') = attempts (w_log w) /\
       w_fs w' = w_fs w) /\
    (s3_exists s3 ("s3://" ++ join (c_bucket c) (fst (split (c_uri c)))) = true ->
     c_destination_dir c <> "" ->
     s3_ls s3 ("s3://" ++ c_full_download_path c) = None ->
     exists w',
       _create_download_obj_and_download_file (c, w) =
         Raise (FileNotFoundError ("s3://" ++ c_full_download_path c)) (c, w') /\
       attempts (w_log w') = attempts (w_log w) + 1 /\
       listings (w_log w') = listings (w_log w) + 1).
Proof.
  intros c w s3 Hs.
  destruct (test_connection_spec c w s3 Hs) as (w1 & Ht & Hl1 & Hf1).
  split.
  - intros He. exists w1. split; [|split; [exact Hl1|split; [|exact Hf1]]].
    + unfold _create_download_obj_and_download_file, Reader.getC. monad_simpl.
      rewrite Ht. cbn beta iota. rewrite He. reflexivity.
    + rewrite Hl1, attempts_app. cbn. lia.
  - intros He Hd Hls. apply String.eqb_neq in Hd. cbn in Hls.
    unfold _create_download_obj_and_download_file, Reader.getC. monad_simpl.
    rewrite Ht. cbn beta iota. rewrite He. cbn [retry_loop].
    unfold Reader.getC, Reader.liftW, Reader.modifyC, new_ParquetFromS3,
      _set_connection_to_s3, _set_destination_directory, _create_list_of_files_to_download,
      log_event, path_exists, mkdir, set_fs.
    monad_simpl. rewrite Hs. cbn. rewrite Hd. cbn.
    destruct (fs_lookup _ _); cbn; rewrite Hls; cbn;
      (eexists; split; [reflexivity|]);
      cbn; unfold attempts, listings in *; rewrite ?filter_app, ?length_app, ?Hl1;
      rewrite ?filter_app, ?length_app; cbn; lia.
Qed.

Lemma existence_check_on_parent_directory_witness :
  (c_s3_connection (conn_b "dir/data.parquet" store_no_prefix) = Some store_no_prefix /\
   exists w',
    _create_download_obj_and_download_file
      (conn_b "dir/data.parquet" store_no_prefix, world store_no_prefix [] [] 4) =
      Raise (S3ConnectionError (msg_unreachable (join "b" "dir/data.parquet")))
            (conn_b "dir/data.parquet" store_no_prefix, w') /\
    w_log w' = ([] ++ [EvExists ("s3://" ++ join "b" (fst (split "dir/data.parquet")))])%list /\
    attempts (w_log w') = attempts [] /\
    w_fs w' = w_fs (world store_no_prefix [] [] 4)) /\
  (c_s3_connection (conn_b "data.parquet" store_no_prefix) = Some store_no_prefix /\
   exists w',
    _create_download_obj_and_download_file
      (conn_b "data.parquet" store_no_prefix, world store_no_prefix [] [] 4) =
      Raise (FileNotFoundError ("s3://" ++ join "b" "data.parquet"))
            (conn_b "data.parquet" store_no_prefix, w') /\
    attempts (w_log w') = attempts [] + 1 /\
    listings (w_log w') = listings [] + 1).
Proof.
  split; split; [reflexivity| |reflexivity|].
  - apply (existence_check_on_parent_directory (conn_b "dir/data.parquet" store_no_prefix)
             (world store_no_prefix [] [] 4) store_no_prefix); [reflexivity|vm_compute; reflexivity].
  - apply (existence_check_on_parent_directory (conn_b "data.parquet" store_no_prefix)
             (world store_no_prefix [] [] 4) store_no_prefix);
      [reflexivity|vm_compute; reflexivity|discriminate|reflexivity].
Defined.

(** C2: every transfer of the reachable prefix fails with a connection
    error, yet the call ends after one attempt with the validation message,
    which names neither the prefix nor an attempt count; in general the
    "after attempting 3 times" error is never raised. *)
Theorem transfer_failures_not_counted_as_attempts :
  match run "data.parquet" (world store_data (repeat TConnFail 4) [] 4) with
  | Raise (S3ConnectionError m) (_, w) =>
      m = msg_not_all /\ index 0 "b/data.parquet" m = None /\ attempts (w_log w) = 1
  | _ => False
  end /\
  (forall c w s3,
     c_s3_connection c = Some s3 -> String.eqb (c_destination_dir c) "" = false ->
     match _create_download_obj_and_download_file (c, w) with
     | Raise e _ => e <> S3ConnectionError (msg_exhausted (c_full_download_path c))
     | _ => True
     end).
Proof.
  split.
  - vm_compute. repeat split.
  - intros c w s3 Hs Hd. pose proof (create_outcome c w s3 Hs Hd) as Ho.
    destruct (_create_download_obj_and_download_file (c, w)) as [a st|e [c' w']|st]; try exact I.
    destruct Ho as [[-> _]|[u ->]]; [|discriminate].
    unfold msg_unreachable, msg_exhausted. intros H; injection H as H.
    apply string_app_cancel in H. discriminate H.
Qed.

(** C3: after a failed transfer no new attempt is made: the prefix is
    listed once and each object is taken from the queue once; in general a
    download phase that returns has built exactly one [ParquetFromS3]. *)
Theorem failed_transfer_not_refetched :
  match run "data.parquet" (world store_data [TConnFail] [] 4) with
  | Raise (S3ConnectionError m) (_, w) =>
      m = msg_not_all /\ attempts (w_log w) = 1 /\ listings (w_log w) = 1 /\
      gets (w_log w) = ["b/data.parquet/part-0001"; "b/data.parquet/part-0002"]
  | _ => False
  end /\
  (forall c w c' w' s3,
     c_s3_connection c = Some s3 -> String.eqb (c_destination_dir c) "" = false ->
     _create_download_obj_and_download_file (c, w) = Ok tt (c', w') ->
     attempts (w_log w') = attempts (w_log w) + 1).
Proof.
  split.
  - vm_compute. repeat split.
  - intros c w c' w' s3 Hs Hd H. pose proof (create_outcome c w s3 Hs Hd) as Ho.
    rewrite H in Ho. exact (proj2 Ho).
Qed.

(** C7: a worker ended by a connection error takes no further step, but the
    error never reaches the orchestrator: [download_files_from_s3] does not
    raise, and with one worker whose first copy fails the call ends after
    one attempt with the validation message, the second object untaken. *)
Theorem connection_failure_not_signalled :
  (forall conn dest i pcs q w,
     nth_error pcs i = Some WFailed -> worker_step conn dest i (pcs, q, w) = (pcs, q, w)) /\
  (forall p w e w', download_files_from_s3 p w <> Raise e w') /\
  match run "data.parquet" (world store_data [TConnFail] [] 1) with
  | Raise (S3ConnectionError m) (_, w) =>
      m = msg_not_all /\ attempts (w_log w) = 1 /\ gets (w_log w) = ["b/data.parquet/part-0001"]
  | _ => False
  end.
Proof.
  split; [|split].
  - intros conn dest i pcs q w H. cbn. rewrite H. reflexivity.
  - intros p w. exact (proj1 (download_files_from_s3_spec p w)).
  - vm_compute. repeat split.
Qed.

(** C8: every item the workers take is taken once, in queue order; but
    two workers that both see a one-item queue non-empty both call
    [queue.get()], and the one that finds it empty blocks forever, so
    [join] never returns. *)
Theorem queue_drain_race_blocks :
  (forall conn dest n sched q0 w0 pcs q w,
     pool_run conn dest n sched q0 w0 = (pcs, q, w) ->
     exists evs, w_log w = (w_log w0 ++ evs)%list /\ (gets evs ++ q)%list = q0) /\
  match download_files_from_s3 p_one (world store_data [] [[0; 1]] 4) with
  | Hang _ => True
  | _ => False
  end /\
  match run "data.parquet" (world store_data [] [[0; 1; 2; 3]] 4) with
  | Hang _ => True
  | _ => False
  end.
Proof.
  split; [|split].
  - intros conn dest n sched q0 w0 pcs q w H.
    apply pool_run_inv in H as (evs & Hl & Hq & _ & _ & _).
    exists evs. split; [exact Hl|exact Hq].
  - vm_compute. exact I.
  - vm_compute. exact I.
Qed.

End Claims.

(* ------------------------------------------------------------------ *)
(** ** Further properties of reader.py and lib/download.py *)

Module Extras.
Import OsPath Download Reader Props Facts Scenario Claims.

(** *** The setters of [Connection] *)

Lemma env_lookup_push k k' v env :
  k <> k' -> env_lookup k ((k', v) :: env) = env_lookup k env.
Proof.
  intros Hk. unfold env_lookup; cbn [find fst].
  destruct (String.eqb k' k) eqn:E; [apply String.eqb_eq in E; congruence|reflexivity].
Qed.

Lemma env_lookup_push_same k v env : env_lookup k ((k, v) :: env) = Some v.
Proof. unfold env_lookup; cbn [find fst]. now rewrite String.eqb_refl. Qed.

Lemma uri_ok c w v c1 w1 :
  _set_uri_path v (c, w) = Ok tt (c1, w1) -> exists u, v = PyStr u /\ c1 = set_uri u c /\ w1 = w.
Proof.
  unfold _set_uri_path, modifyC. destruct v as [|u|n]; cbn; try discriminate.
  rewrite orb_true_r; cbn. intros H; injection H as <- <-. eauto.
Qed.

Lemma bucket_ok c w v c1 w1 :
  _set_bucket v (c, w) = Ok tt (c1, w1) ->
  w1 = w /\
  (if falsy (env_lookup "S3_BUCKET" (w_env w)) then v = PyStr (c_bucket c1)
   else env_lookup "S3_BUCKET" (w_env w) = Some (c_bucket c1)) /\
  c1 = set_bucket (c_bucket c1) c.
Proof.
  unfold _set_bucket, getenv, modifyC; monad_simpl.
  destruct (env_lookup "S3_BUCKET" (w_env w)) as [b|]; cbn;
    [destruct (String.eqb b "")|]; destruct v; cbn; try rewrite orb_true_r; cbn;
    try discriminate; intros H; injection H as <- <-; repeat split.
Qed.

Lemma access_ok c w v c1 w1 :
  _set_s3_access_key v (c, w) = Ok tt (c1, w1) ->
  c1 = c /\ w_fs w1 = w_fs w /\ w_remote w1 = w_remote w /\
  (forall k, k <> "S3_ACCESS" -> env_lookup k (w_env w1) = env_lookup k (w_env w)).
Proof.
  unfold _set_s3_access_key, getenv, environ_set; monad_simpl.
  destruct (falsy (env_lookup "S3_ACCESS" (w_env w))); cbn.
  - destruct v; cbn; try rewrite orb_true_r; cbn; try discriminate.
    destruct (has_nul _); cbn; [discriminate|].
    intros H; injection H as <- <-. repeat split. intros k Hk. cbn. now apply env_lookup_push.
  - intros H; injection H as <- <-. now repeat split.
Qed.

Lemma secret_ok c w v c1 w1 :
  _set_s3_secret_key v (c, w) = Ok tt (c1, w1) ->
  c1 = c /\ w1 = w /\ falsy (env_lookup "S3_SECRET" (w_env w)) = false.
Proof.
  unfold _set_s3_secret_key, getenv, environ_set; monad_simpl.
  destruct (falsy (env_lookup "S3_SECRET" (w_env w))); cbn.
  - destruct v; cbn; discriminate.
  - intros H; injection H as <- <-. now repeat split.
Qed.

Lemma dest_ok c w v c1 w1 :
  _set_json_destination_directory v (c, w) = Ok tt (c1, w1) ->
  c1 = set_destination_dir (c_destination_dir c1) c /\
  fs_lookup (c_destination_dir c1) (w_fs w1) <> None /\
  grows w w1 /\ w_remote w1 = w_remote w.
Proof.
  unfold _set_json_destination_directory, liftW, path_exists, mkdir, modifyC, set_fs; monad_simpl.
  destruct (truthy_arg v); cbn.
  - destruct v as [|d|n]; cbn; try discriminate.
    destruct (fs_lookup d (w_fs w)) eqn:E; cbn; intros H; injection H as <- <-; cbn.
    + repeat split; [congruence|exists []; reflexivity].
    + repeat split; [unfold fs_lookup; cbn; rewrite String.eqb_refl; discriminate|].
      eexists (_ :: []); reflexivity.
  - intros H; injection H as <- <-; cbn. repeat split.
    + unfold fs_lookup; cbn; rewrite String.eqb_refl; discriminate.
    + eexists (_ :: []); reflexivity.
Qed.

Lemma connection_ok c w c1 w1 :
  _create_connection (c, w) = Ok tt (c1, w1) ->
  c1 = set_s3_connection (w_remote w) c /\ w1 = w /\
  falsy (env_lookup "JAVA_HOME" (w_env w)) = false /\
  falsy (env_lookup "S3_ACCESS" (w_env w)) = false /\
  falsy (env_lookup "S3_SECRET" (w_env w)) = false.
Proof.
  unfold _create_connection, getenv; monad_simpl.
  destruct (falsy (env_lookup "JAVA_HOME" (w_env w))); cbn; [discriminate|].
  destruct (falsy (env_lookup "S3_ACCESS" (w_env w))),
           (falsy (env_lookup "S3_SECRET" (w_env w))); cbn; try discriminate.
  intros H; injection H as <- <-. now repeat split.
Qed.

Lemma access_noop c w v :
  falsy (env_lookup "S3_ACCESS" (w_env w)) = false -> _set_s3_access_key v (c, w) = Ok tt (c, w).
Proof. intros H. unfold _set_s3_access_key, getenv; monad_simpl. now rewrite H. Qed.

Lemma secret_noop c w v :
  falsy (env_lookup "S3_SECRET" (w_env w)) = false -> _set_s3_secret_key v (c, w) = Ok tt (c, w).
Proof. intros H. unfold _set_s3_secret_key, getenv; monad_simpl. now rewrite H. Qed.

Lemma secret_falsy_raises c w v :
  falsy (env_lookup "S3_SECRET" (w_env w)) = true ->
  match _set_s3_secret_key v (c, w) with
  | Raise (ValueError _) _ | Raise (TypeError _) _ => True
  | _ => False
  end.
Proof.
  intros H. unfold _set_s3_secret_key, getenv, environ_set; monad_simpl. rewrite H.
  destruct v; cbn; exact I.
Qed.

(** [_set_bucket]: a non-empty [S3_BUCKET] in the environment is used
    whatever the argument is (even a non-string); otherwise any string
    argument, the empty one included, becomes the bucket, and a non-string
    raises [ValueError]. The world is never changed. *)
Theorem set_bucket_env_first :
  forall c w v,
    (forall b, env_lookup "S3_BUCKET" (w_env w) = Some b -> b <> "" ->
       _set_bucket v (c, w) = Ok tt (set_bucket b c, w)) /\
    (falsy (env_lookup "S3_BUCKET" (w_env w)) = true ->
       (forall b, v = PyStr b -> _set_bucket v (c, w) = Ok tt (set_bucket b c, w)) /\
       (isinstance_str v = false -> exists m, _set_bucket v (c, w) = Raise (ValueError m) (c, w))).
Proof.
  intros c w v. unfold _set_bucket, getenv, modifyC; monad_simpl. split.
  - intros b Hb Hne. rewrite Hb. cbn.
    apply String.eqb_neq in Hne. rewrite Hne. reflexivity.
  - intros Hf. rewrite Hf. split.
    + intros b ->. cbn. rewrite orb_true_r. reflexivity.
    + destruct v; cbn; try discriminate; eauto.
Qed.

(** [_set_s3_access_key]: with a non-empty [S3_ACCESS] it changes nothing,
    whatever the argument; otherwise a string argument without a NUL
    character (the empty one included) is stored as [S3_ACCESS], leaving the
    other variables, a string with a NUL character is refused by
    [os.environ] with [ValueError], and a non-string raises [ValueError]. *)
Theorem set_access_key_env_first :
  forall c w v,
    (falsy (env_lookup "S3_ACCESS" (w_env w)) = false ->
       _set_s3_access_key v (c, w) = Ok tt (c, w)) /\
    (falsy (env_lookup "S3_ACCESS" (w_env w)) = true ->
       (forall a, v = PyStr a -> has_nul a = false -> exists w1,
          _set_s3_access_key v (c, w) = Ok tt (c, w1) /\
          env_lookup "S3_ACCESS" (w_env w1) = Some a /\
          (forall k, k <> "S3_ACCESS" -> env_lookup k (w_env w1) = env_lookup k (w_env w)) /\
          w_fs w1 = w_fs w) /\
       (forall a, v = PyStr a -> has_nul a = true ->
          _set_s3_access_key v (c, w) = Raise (ValueError "embedded null byte") (c, w)) /\
       (isinstance_str v = false ->
          exists m, _set_s3_access_key v (c, w) = Raise (ValueError m) (c, w))).
Proof.
  intros c w v. split; [apply access_noop|].
  intros Hf. unfold _set_s3_access_key, getenv, environ_set; monad_simpl. rewrite Hf. split; [|split].
  - intros a -> Hn. cbn. rewrite orb_true_r. cbn. rewrite Hn. eexists; split; [reflexivity|].
    cbn. split; [first [reflexivity|apply env_lookup_push_same]|split; [|reflexivity]].
    intros k Hk. change (env_lookup k (("S3_ACCESS", a) :: w_env w) = env_lookup k (w_env w)).
    now apply env_lookup_push.
  - intros a -> Hn. cbn. rewrite orb_true_r. cbn. rewrite Hn. reflexivity.
  - destruct v; cbn; try discriminate; eauto.
Qed.

(** [_set_json_destination_directory]: an existing non-empty path [d]
    becomes the destination and nothing else changes (no directory is
    created). When the call returns, the destination is the fresh temporary
    directory if no directory was given ([None] or [""]) and [d] for a
    non-empty path [d]; either way it exists afterwards, and no local entry
    was removed nor any variable of the environment changed. *)
Theorem json_destination_directory :
  forall c w,
    (forall d, d <> "" -> fs_lookup d (w_fs w) <> None ->
       _set_json_destination_directory (PyStr d) (c, w) = Ok tt (set_destination_dir d c, w)) /\
    (forall v c1 w1, _set_json_destination_directory v (c, w) = Ok tt (c1, w1) ->
       c1 = set_destination_dir (c_destination_dir c1) c /\
       c_destination_dir c1 = (if truthy_arg v then match v with PyStr d => d | _ => "" end
                               else w_tmpdir w) /\
       fs_lookup (c_destination_dir c1) (w_fs w1) <> None /\ grows w w1).
Proof.
  intros c w. split.
  - intros d Hd Hex. apply String.eqb_neq in Hd.
    unfold _set_json_destination_directory, liftW, path_exists, modifyC; monad_simpl.
    cbn. rewrite Hd. cbn.
    destruct (fs_lookup d (w_fs w)); [reflexivity|contradiction].
  - intros v c1 w1 H. pose proof H as H'. apply dest_ok in H' as (Ec & Hex & Hg & _).
    split; [exact Ec|split; [|split; [exact Hex|exact Hg]]].
    revert H. unfold _set_json_destination_directory, liftW, path_exists, mkdir, modifyC, set_fs;
      monad_simpl.
    destruct (truthy_arg v); cbn.
    + destruct v as [|d|n]; cbn; try discriminate.
      destruct (fs_lookup d (w_fs w)); cbn; intros E; injection E as <- <-; reflexivity.
    + intros E; injection E as <- <-; reflexivity.
Qed.

(** [Connection.__init__] can return only when [S3_SECRET] and
    [JAVA_HOME] are already non-empty in the environment; then [uri] is a
    string, the bucket comes from [S3_BUCKET] when it is set and from the
    argument otherwise, [_full_download_path] is [os.path.join(bucket, uri)],
    the connection is the [S3FileSystem] built from the credentials, the
    destination directory exists and no local entry was removed. *)
Theorem init_ok :
  forall uri bucket access_key secret_key destination_dir c w c' w',
    __init__ uri bucket access_key secret_key destination_dir (c, w) = Ok tt (c', w') ->
    exists u, uri = PyStr u /\ c_uri c' = u /\
      (if falsy (env_lookup "S3_BUCKET" (w_env w)) then bucket = PyStr (c_bucket c')
       else env_lookup "S3_BUCKET" (w_env w) = Some (c_bucket c')) /\
      c_full_download_path c' = join (c_bucket c') u /\
      c_s3_connection c' = Some (w_remote w) /\
      falsy (env_lookup "S3_SECRET" (w_env w)) = false /\
      falsy (env_lookup "JAVA_HOME" (w_env w)) = false /\
      fs_lookup (c_destination_dir c') (w_fs w') <> None /\
      (exists pre, w_fs w' = (pre ++ w_fs w)%list).
Proof.
  intros uri bucket access_key secret_key destination_dir c w c' w'.
  unfold __init__, getC, modifyC; monad_simpl.
  destruct (_set_uri_path uri (c, w)) as [[] [c1 w1]|e st|st] eqn:H1; try discriminate.
  apply uri_ok in H1 as (u & -> & -> & ->).
  destruct (_set_bucket bucket (set_uri u c, w)) as [[] [c2 w2]|e st|st] eqn:H2; try discriminate.
  apply bucket_ok in H2 as (-> & Hb & Ec2).
  destruct (_set_s3_access_key access_key (c2, w)) as [[] [c3 w3]|e st|st] eqn:H3; try discriminate.
  apply access_ok in H3 as (-> & Hf3 & Hr3 & He3).
  destruct (_set_s3_secret_key secret_key (c2, w3)) as [[] [c4 w4]|e st|st] eqn:H4; try discriminate.
  apply secret_ok in H4 as (-> & -> & Hs4).
  destruct (_set_json_destination_directory destination_dir (c2, w3)) as [[] [c5 w5]|e st|st]
    eqn:H5; try discriminate.
  apply dest_ok in H5 as (Ec5 & Hd5 & [[pre Hf5] He5] & Hr5).
  destruct (_create_connection (c5, w5)) as [[] [c6 w6]|e st|st] eqn:H6; try discriminate.
  apply connection_ok in H6 as (-> & -> & Hj6 & _ & _).
  cbn. intros H; injection H as <- <-.
  rewrite He3 in Hs4 by discriminate.
  rewrite He5, He3 in Hj6 by discriminate.
  rewrite Ec5, Ec2 in *. cbn in *.
  exists u. split; [reflexivity|]. split; [reflexivity|]. split; [exact Hb|].
  split; [reflexivity|]. split; [now rewrite Hr5, Hr3|]. split; [exact Hs4|].
  split; [exact Hj6|]. split; [exact Hd5|].
  exists pre. now rewrite Hf5, Hf3.
Qed.

Lemma init_ok_witness :
  exists c' w',
    __init__ (PyStr "data.parquet") (PyStr "b") PyNone PyNone (PyStr "/out")
      (conn0, world store_data [] [] 4) = Ok tt (c', w') /\
    exists u, PyStr "data.parquet" = PyStr u /\ c_uri c' = u /\
      (if falsy (env_lookup "S3_BUCKET" (w_env (world store_data [] [] 4)))
       then PyStr "b" = PyStr (c_bucket c')
       else env_lookup "S3_BUCKET" (w_env (world store_data [] [] 4)) = Some (c_bucket c')) /\
      c_full_download_path c' = join (c_bucket c') u /\
      c_s3_connection c' = Some (w_remote (world store_data [] [] 4)) /\
      falsy (env_lookup "S3_SECRET" (w_env (world store_data [] [] 4))) = false /\
      falsy (env_lookup "JAVA_HOME" (w_env (world store_data [] [] 4))) = false /\
      fs_lookup (c_destination_dir c') (w_fs w') <> None /\
      (exists pre, w_fs w' = (pre ++ w_fs (world store_data [] [] 4))%list).
Proof.
  destruct (__init__ (PyStr "data.parquet") (PyStr "b") PyNone PyNone (PyStr "/out")
              (conn0, world store_data [] [] 4)) as [[] [c' w']|e st|st] eqn:E;
    pose proof E as E'; vm_compute in E; try discriminate E.
  exists c', w'. split; [reflexivity|].
  exact (init_ok _ _ _ _ _ _ _ c' w' E').
Defined.

(** With [S3_SECRET] unset or empty, [Connection(...)] raises
    [ValueError] or [TypeError] for every argument: a string [secret_key]
    is refused, and any other value cannot be stored in [os.environ]. *)
Theorem init_needs_secret_env :
  forall uri bucket access_key secret_key destination_dir c w,
    falsy (env_lookup "S3_SECRET" (w_env w)) = true ->
    match __init__ uri bucket access_key secret_key destination_dir (c, w) with
    | Raise (ValueError _) _ | Raise (TypeError _) _ => True
    | _ => False
    end.
Proof.
  intros uri bucket access_key secret_key destination_dir c w Hf.
  unfold __init__, bind.
  pose proof (set_uri_path_keeps c w uri) as K1.
  destruct (_set_uri_path uri (c, w)) as [[] [c1 w1]|e st|st]; cbn in K1;
    [|destruct e; try contradiction; exact I|contradiction].
  pose proof (set_bucket_keeps c1 w1 bucket) as K2.
  destruct (_set_bucket bucket (c1, w1)) as [[] [c2 w2]|e st|st]; cbn in K2;
    [|destruct e; try contradiction; exact I|contradiction].
  pose proof (set_access_key_keeps c2 w2 access_key) as K3.
  destruct (_set_s3_access_key access_key (c2, w2)) as [[] [c3 w3]|e st|st]; cbn in K3;
    [|destruct e; try contradiction; exact I|contradiction].
  assert (Hf3 : falsy (env_lookup "S3_SECRET" (w_env w3)) = true) by congruence.
  pose proof (secret_falsy_raises c3 w3 secret_key Hf3) as K4.
  destruct (_set_s3_secret_key secret_key (c3, w3)) as [[] [c4 w4]|[] st|st];
    cbn in K4 |- *; solve [contradiction | exact I].
Qed.

Lemma init_needs_secret_env_witness :
  falsy (env_lookup "S3_SECRET" (w_env world_no_secret)) = true /\
  match __init__ (PyStr "data.parquet") (PyStr "b") PyNone PyNone (PyStr "/out")
          (conn0, world_no_secret) with
  | Raise (ValueError _) _ | Raise (TypeError _) _ => True
  | _ => False
  end.
Proof.
  split; [reflexivity|].
  apply (init_needs_secret_env (PyStr "data.parquet") (PyStr "b") PyNone PyNone (PyStr "/out")
           conn0 world_no_secret); reflexivity.
Defined.

(** With [S3_ACCESS] and [S3_SECRET] set (non-empty), [Connection(...)]
    does not depend on its [access_key] and [secret_key] arguments. *)
Theorem init_ignores_key_arguments :
  forall uri bucket a1 s1 a2 s2 destination_dir c w,
    falsy (env_lookup "S3_ACCESS" (w_env w)) = false ->
    falsy (env_lookup "S3_SECRET" (w_env w)) = false ->
    __init__ uri bucket a1 s1 destination_dir (c, w) =
    __init__ uri bucket a2 s2 destination_dir (c, w).
Proof.
  intros uri bucket a1 s1 a2 s2 destination_dir c w Ha Hs.
  unfold __init__, bind.
  destruct (_set_uri_path uri (c, w)) as [[] [c1 w1]|e st|st] eqn:H1; try reflexivity.
  apply uri_ok in H1 as (u & _ & _ & ->).
  destruct (_set_bucket bucket (c1, w)) as [[] [c2 w2]|e st|st] eqn:H2; try reflexivity.
  apply bucket_ok in H2 as (-> & _ & _).
  rewrite !(access_noop c2 w _ Ha), !(secret_noop c2 w _ Hs). reflexivity.
Qed.

Lemma init_ignores_key_arguments_witness :
  (falsy (env_lookup "S3_ACCESS" (w_env (world store_data [] [] 4))) = false /\
   falsy (env_lookup "S3_SECRET" (w_env (world store_data [] [] 4))) = false) /\
  __init__ (PyStr "data.parquet") (PyStr "b") (PyStr "k1") PyNone (PyStr "/out")
    (conn0, world store_data [] [] 4) =
  __init__ (PyStr "data.parquet") (PyStr "b") PyNone (PyStr "s2") (PyStr "/out")
    (conn0, world store_data [] [] 4).
Proof.
  split; [split; reflexivity|].
  apply (init_ignores_key_arguments (PyStr "data.parquet") (PyStr "b") (PyStr "k1") PyNone
           PyNone (PyStr "s2") (PyStr "/out") conn0 (world store_data [] [] 4)); reflexivity.
Defined.

(** *** [ParquetFromS3] construction *)

Lemma split_last_slash_trailing (u : string) : split_last_slash (u ++ "/") = ((u ++ "/")%string, "").
Proof.
  induction u as [|c rest IH]; [reflexivity|].
  cbn [append split_last_slash]. rewrite IH. destruct rest; reflexivity.
Qed.

(** [_set_destination_directory]: an empty [parent_dir] raises
    [DownloadError]; when it returns, the destination is
    [os.path.join(parent_dir, basename(uri))], it exists locally and no
    local entry was removed. For a [uri] ending in ['/'] the base name is
    empty, so the destination is [os.path.join(parent_dir, "")], the
    parent directory itself. *)
Theorem set_destination_directory_spec :
  forall parent_dir uri w,
    (parent_dir = "" -> exists m, _set_destination_directory parent_dir uri w = Raise (DownloadError m) w) /\
    (forall d w', _set_destination_directory parent_dir uri w = Ok d w' ->
       d = join parent_dir (basename uri) /\ fs_lookup d (w_fs w') <> None /\ grows w w') /\
    (forall u d w', uri = (u ++ "/")%string ->
       _set_destination_directory parent_dir uri w = Ok d w' -> d = join parent_dir "").
Proof.
  intros parent_dir uri w.
  assert (Hok : forall d w', _set_destination_directory parent_dir uri w = Ok d w' ->
            d = join parent_dir (basename uri) /\ fs_lookup d (w_fs w') <> None /\ grows w w').
  { unfold _set_destination_directory, path_exists, mkdir, set_fs; monad_simpl.
    destruct (String.eqb parent_dir ""); [discriminate|]. rewrite split_snd. cbn.
    destruct (fs_lookup (join parent_dir (basename uri)) (w_fs w)) eqn:E; cbn;
      intros d w' H; injection H as <- <-; cbn.
    + repeat split; [congruence|exists []; reflexivity].
    + repeat split; [unfold fs_lookup; cbn; rewrite String.eqb_refl; discriminate|].
      eexists (_ :: []); reflexivity. }
  split; [|split; [exact Hok|]].
  - intros ->. eexists; reflexivity.
  - intros u d w' Hu H. apply Hok in H as [-> _]. subst uri.
    unfold basename. now rewrite split_last_slash_trailing.
Qed.

(** [_create_list_of_files_to_download]: a missing prefix raises
    [FileNotFoundError]; otherwise the non-marker objects are appended to
    the queue in listing order and their base names to the expected files,
    in the same order. *)
Theorem list_files_in_listing_order :
  forall p w,
    (s3_ls (p_connection p) ("s3://" ++ p_uri p) = None ->
       exists w', _create_list_of_files_to_download p w =
                  Raise (FileNotFoundError ("s3://" ++ p_uri p)) w') /\
    (forall listing, s3_ls (p_connection p) ("s3://" ++ p_uri p) = Some listing ->
       exists w', _create_list_of_files_to_download p w =
         Ok {| p_connection := p_connection p; p_destination_path := p_destination_path p;
               p_uri := p_uri p;
               p_queue := (p_queue p ++ filter (fun x => negb (is_marker x)) listing)%list;
               p_num_of_processes := p_num_of_processes p;
               p_files_to_download :=
                 (p_files_to_download p ++
                  map basename (filter (fun x => negb (is_marker x)) listing))%list |} w').
Proof.
  intros p w. unfold _create_list_of_files_to_download, log_event; monad_simpl. split.
  - intros H. rewrite H. eexists; reflexivity.
  - intros listing H. rewrite H, list_files_loop_spec. eexists; reflexivity.
Qed.

(** *** One worker process *)

Lemma single_step conn dest i st :
  single_ok st -> single_ok (worker_step conn dest i st).
Proof.
  destruct st as [[pcs q] w]. intros Hs; unfold single_ok in Hs; destruct Hs as (pc & -> & H).
  unfold worker_step. destruct i as [|i].
  2: { replace (nth_error [pc] (S i)) with (@None wpc) by (destruct i; reflexivity).
       exists pc; now split. }
  cbn [nth_error].
  destruct pc; destruct q as [|x q];
    try (exists WDone; split; [reflexivity|discriminate]);
    try (exists WGet; split; [reflexivity|intros _; discriminate]);
    try (exfalso; now apply H);
    try (eexists; split; [reflexivity|exact H]).
  destruct (copy_object conn dest 0 x w) as [[|] w'];
    [exists WLoop|exists WFailed]; split; try reflexivity; discriminate.
Qed.

Lemma single_run_sched conn dest sched : forall st,
  single_ok st -> single_ok (run_sched conn dest sched st).
Proof.
  unfold run_sched; induction sched as [|i sched IH]; intros st H; cbn [fold_left].
  - exact H.
  - apply IH, single_step, H.
Qed.

Lemma drain_alone_not_blocked conn dest i q : forall pc w,
  (pc = WGet -> q <> []) -> blocked (fst (fst (drain_alone conn dest i pc q w))) = false.
Proof.
  induction q as [|x q IH]; intros pc w H.
  - destruct pc; try reflexivity. exfalso; now apply H.
  - destruct pc; cbn [drain_alone]; try reflexivity;
      destruct (copy_object conn dest i x w) as [[|] w']; try reflexivity;
      apply IH; discriminate.
Qed.

(** [download_files_from_s3] with [_num_of_processes = 1]: whatever the
    reads give and whatever the schedule, the one worker never waits on an
    empty queue, so [join] returns and the call returns normally. *)
Theorem single_worker_never_blocks :
  forall p w, p_num_of_processes p = 1 ->
    exists q w', download_files_from_s3 p w = Ok (with_queue p q) w'.
Proof.
  intros p w Hn. unfold download_files_from_s3.
  destruct (pop_sched w) as [sched w0]. unfold pool_run. rewrite Hn. cbn [repeat].
  pose proof (single_run_sched (p_connection p) (p_destination_path p) sched
                ([WLoop], p_queue p, w0)) as Hs.
  destruct (run_sched (p_connection p) (p_destination_path p) sched ([WLoop], p_queue p, w0))
    as [[pcs q] w1].
  destruct Hs as (pc & -> & H); [exists WLoop; split; [reflexivity|discriminate]|].
  cbn [complete].
  pose proof (drain_alone_not_blocked (p_connection p) (p_destination_path p) 0 q pc w1 H) as Hb.
  destruct (drain_alone (p_connection p) (p_destination_path p) 0 pc q w1) as [[pc' q'] w2].
  destruct pc'; cbn in Hb |- *; try discriminate; eauto.
Qed.

Lemma single_worker_never_blocks_witness :
  p_num_of_processes p_single = 1 /\
  exists q w', download_files_from_s3 p_single (world store_data [TConnFail] [] 4)
               = Ok (with_queue p_single q) w'.
Proof.
  split; [reflexivity|].
  apply (single_worker_never_blocks p_single (world store_data [TConnFail] [] 4)).
  reflexivity.
Defined.

(** *** What the pool writes *)

Lemma grows_at_refl P w : grows_at P w w.
Proof. split; [exists []; split; [reflexivity|constructor]|reflexivity]. Qed.

Lemma grows_at_trans P w1 w2 w3 : grows_at P w1 w2 -> grows_at P w2 w3 -> grows_at P w1 w3.
Proof.
  intros [(pre1 & E1 & F1) V1] [(pre2 & E2 & F2) V2]. split.
  - exists (pre2 ++ pre1)%list. split; [now rewrite E2, E1, app_assoc|apply Forall_app; now split].
  - congruence.
Qed.

Lemma grows_at_mono (P Q : string -> Prop) w w' :
  (forall x, P x -> Q x) -> grows_at P w w' -> grows_at Q w w'.
Proof.
  intros HPQ [(pre & E & F) V]. split; [|exact V].
  exists pre; split; [exact E|]. eapply Forall_impl; [|exact F]. intros a; apply HPQ.
Qed.

Lemma copy_object_grows conn dest i x w ok w' :
  copy_object conn dest i x w = (ok, w') -> grows_at (dest_path dest [x]) w w'.
Proof.
  unfold copy_object, log_event, next_read, write_file, set_fs; cbn.
  assert (Hx : dest_path dest [x] (join dest (basename x))) by (exists x; split; [now left|reflexivity]).
  destruct (w_net w) as [|o rest]; [|destruct o]; cbn;
    try (destruct (s3_size conn x) as [n|]); intros H; inversion H; subst; clear H;
    (split; [|reflexivity]);
    first [ exists []; split; [reflexivity|constructor]
          | eexists [_]; split; [reflexivity|repeat constructor; exact Hx] ].
Qed.

Lemma fs_lookup_app_other pre fs path :
  Forall (fun e => fst e <> path) pre -> fs_lookup path (pre ++ fs) = fs_lookup path fs.
Proof.
  unfold fs_lookup. induction 1 as [|e pre He _ IH]; [reflexivity|].
  cbn [app find]. destruct (String.eqb (fst e) path) eqn:E; [|exact IH].
  apply String.eqb_eq in E. contradiction.
Qed.

Section PoolWrites.
Variable conn : S3FileSystem.
Variable dest : string.
Variable q0 : list string.
Variable w0 : World.

Lemma copy_object_grows_q x w i ok w' :
  In x q0 -> grows_at (dest_path dest q0) w0 w -> copy_object conn dest i x w = (ok, w') ->
  grows_at (dest_path dest q0) w0 w'.
Proof.
  intros Hx H0 Hc. apply copy_object_grows in Hc.
  apply (grows_at_trans _ _ w); [exact H0|].
  eapply grows_at_mono; [|exact Hc].
  intros a (y & [Ey|[]] & ->). subst y. exists x; split; [exact Hx|reflexivity].
Qed.

Lemma worker_step_grows i pcs q w :
  incl q q0 -> grows_at (dest_path dest q0) w0 w ->
  let '(_, q', w') := worker_step conn dest i (pcs, q, w) in
  incl q' q0 /\ grows_at (dest_path dest q0) w0 w'.
Proof.
  intros Hq Hw. unfold worker_step.
  destruct (nth_error pcs i) as [[| | |]|]; destruct q as [|x q]; auto.
  destruct (copy_object conn dest i x w) as [ok w'] eqn:Hc. split.
  - intros a Ha; apply Hq; now right.
  - eapply copy_object_grows_q; [apply Hq; now left|exact Hw|exact Hc].
Qed.

Lemma run_sched_grows sched : forall pcs q w,
  incl q q0 -> grows_at (dest_path dest q0) w0 w ->
  let '(_, q', w') := run_sched conn dest sched (pcs, q, w) in
  incl q' q0 /\ grows_at (dest_path dest q0) w0 w'.
Proof.
  unfold run_sched; induction sched as [|i sched IH]; intros pcs q w Hq Hw; cbn [fold_left].
  - auto.
  - pose proof (worker_step_grows i pcs q w Hq Hw) as Hs.
    destruct (worker_step conn dest i (pcs, q, w)) as [[pcs1 q1] w1].
    destruct Hs as [Hq1 Hw1]. apply IH; assumption.
Qed.

Lemma drain_alone_grows i q : forall pc w pc' q' w',
  incl q q0 -> grows_at (dest_path dest q0) w0 w ->
  drain_alone conn dest i pc q w = (pc', q', w') ->
  incl q' q0 /\ grows_at (dest_path dest q0) w0 w'.
Proof.
  induction q as [|x q IH]; intros pc w pc' q' w' Hq Hw H.
  - destruct pc; cbn [drain_alone] in H; injection H as <- <- <-; auto.
  - assert (Hq' : incl q q0) by (intros a Ha; apply Hq; now right).
    destruct pc; cbn [drain_alone] in H;
      try (injection H as <- <- <-; now split).
    all: destruct (copy_object conn dest i x w) as [[|] w1] eqn:Hc;
      (assert (Hw1 : grows_at (dest_path dest q0) w0 w1)
         by (eapply copy_object_grows_q; [apply Hq; now left|exact Hw|exact Hc]));
      [eapply IH; eassumption|injection H as <- <- <-; now split].
Qed.

Lemma complete_grows pcs : forall i q w pcs' q' w',
  incl q q0 -> grows_at (dest_path dest q0) w0 w ->
  complete conn dest i pcs q w = (pcs', q', w') ->
  grows_at (dest_path dest q0) w0 w'.
Proof.
  induction pcs as [|pc pcs IH]; intros i q w pcs' q' w' Hq Hw H; cbn [complete] in H.
  - now injection H as <- <- <-.
  - destruct (drain_alone conn dest i pc q w) as [[pc1 q1] w1] eqn:Hd.
    destruct (complete conn dest (S i) pcs q1 w1) as [[pcs2 q2] w2] eqn:Hc.
    injection H as <- <- <-.
    apply drain_alone_grows in Hd as [Hq1 Hw1]; [|exact Hq|exact Hw].
    eapply IH; eassumption.
Qed.

End PoolWrites.

(** [download_files_from_s3] (its workers running [_download_single_file])
    leaves [os.environ] as it is and changes no local path other than
    [destination/basename(x)] for an [x] of its queue: every other path
    reads the same size, or stays absent, whether the call returns or
    blocks. *)
Theorem download_touches_only_destination :
  forall p w,
    w_env (res_world (download_files_from_s3 p w)) = w_env w /\
    forall path, ~ dest_path (p_destination_path p) (p_queue p) path ->
      fs_lookup path (w_fs (res_world (download_files_from_s3 p w))) = fs_lookup path (w_fs w).
Proof.
  intros p w. unfold download_files_from_s3.
  destruct (pop_sched w) as [sched w0] eqn:Hpop.
  assert (H0 : grows_at (dest_path (p_destination_path p) (p_queue p)) w w0).
  { unfold pop_sched in Hpop; destruct (w_sched w); injection Hpop as <- <-;
      [apply grows_at_refl|split; [exists []; split; [reflexivity|constructor]|reflexivity]]. }
  destruct (pool_run (p_connection p) (p_destination_path p) (p_num_of_processes p) sched
              (p_queue p) w0) as [[pcs q] w1] eqn:Hr.
  assert (H1 : grows_at (dest_path (p_destination_path p) (p_queue p)) w w1).
  { unfold pool_run in Hr.
    pose proof (run_sched_grows (p_connection p) (p_destination_path p) (p_queue p) w sched
                  (repeat WLoop (p_num_of_processes p)) (p_queue p) w0
                  (incl_refl _) H0) as Hs.
    destruct (run_sched (p_connection p) (p_destination_path p) sched
                (repeat WLoop (p_num_of_processes p), p_queue p, w0)) as [[pcs1 q1] w1'].
    destruct Hs as [Hq1 Hw1]. eapply complete_grows; eassumption. }
  destruct H1 as [(pre & Efs & Fpre) Venv].
  assert (Hres : res_world (if existsb blocked pcs then Hang w1 else Ok (with_queue p q) w1) = w1)
    by (destruct (existsb blocked pcs); reflexivity).
  rewrite Hres. split; [exact Venv|].
  intros path Hpath. rewrite Efs. apply fs_lookup_app_other.
  eapply Forall_impl; [|exact Fpre]. intros e He E. apply Hpath. now rewrite <- E.
Qed.

(** *** [_set_uri_path] *)

(** [_set_uri_path]: every string, the empty string included, becomes the
    uri (the test [uri != "" or uri is not None] holds for every string);
    any other value raises [ValueError] and changes nothing. *)
Theorem set_uri_path_accepts_any_string :
  forall c w,
    (forall u, _set_uri_path (PyStr u) (c, w) = Ok tt (set_uri u c, w)) /\
    (forall v, isinstance_str v = false ->
       exists msg, _set_uri_path v (c, w) = Raise (ValueError msg) (c, w)).
Proof.
  intros c w. split.
  - intros u. unfold _set_uri_path, modifyC. cbn. now rewrite orb_true_r.
  - intros [|u|n] Hv; try discriminate Hv; eexists; reflexivity.
Qed.

End Extras.
